(** * SheetMetalAI: the DXF writer, the preview parser and the flat-pattern
      geometry engine of [src/services/dxfService.ts]

    With them come the preview and the progress icons of [src/App.tsx] and
    the cleaning of the model's reply in [src/services/geminiService.ts].

    The development embeds the TypeScript source shallowly: the writer
    class as functions on its [content] array, [parseDxf] as a function on
    the list of lines with its index as the list of lines not yet read, and
    [generateFabricationFiles] as a function that returns the files
    together with the input object as the call leaves it.

    Numbers.  A JavaScript [number] is an IEEE double.  Every finite double
    is a rational, so finite numbers are modelled as [Q] with exact
    arithmetic (no rounding, no overflow, no signed zero); the parser, which
    meets [NaN] and the infinities, uses [jsnum].  What ECMAScript leaves
    to the implementation ([Math.sqrt], [Math.atan2], [Math.cos],
    [Math.sin], and the digits [Number.prototype.toString] prints) is the
    class [Host]; module [Ref] is one host, used to run examples.

    Strings.  A JavaScript string is modelled as a [string] of bytes;
    white space is the ASCII white space.

    Layout.  The embedding comes first, then the vocabulary of the
    statements, then the properties. *)

From Stdlib Require Import ZArith QArith Qround Qabs Qminmax List String Ascii Bool Lia Lqa.
Import ListNotations.

Local Open Scope string_scope.

(** ** JavaScript strings *)

Module JS.

Definition nl : ascii := "010"%char.

(** [String.prototype.split] with the separator ["\n"]. *)
Fixpoint split_nl (s : string) : list string :=
  match s with
  | EmptyString => [EmptyString]
  | String c r =>
      if Ascii.eqb c nl then EmptyString :: split_nl r
      else match split_nl r with
           | [] => [String c EmptyString]
           | l :: ls => String c l :: ls
           end
  end.

(** [Array.prototype.join] with the separator ["\n"]. *)
Fixpoint join_nl (l : list string) : string :=
  match l with
  | [] => EmptyString
  | [x] => x
  | x :: r => x ++ String nl (join_nl r)
  end.

Definition is_ws (c : ascii) : bool :=
  let n := nat_of_ascii c in
  (Nat.eqb n 32 || (Nat.leb 9 n && Nat.leb n 13))%bool.

Fixpoint trimStart (s : string) : string :=
  match s with
  | EmptyString => EmptyString
  | String c r => if is_ws c then trimStart r else s
  end.

(** [trimEnd] keeps a character when it is not white space or when
    something survives after it. *)
Fixpoint trimEnd (s : string) : string :=
  match s with
  | EmptyString => EmptyString
  | String c r =>
      match trimEnd r with
      | EmptyString => if is_ws c then EmptyString else String c EmptyString
      | r' => String c r'
      end
  end.

Definition trim (s : string) : string := trimEnd (trimStart s).

Fixpoint no_nl (s : string) : bool :=
  match s with
  | EmptyString => true
  | String c r => (negb (Ascii.eqb c nl) && no_nl r)%bool
  end.

(** [String.prototype.includes]. *)
Fixpoint includes (needle s : string) : bool :=
  (String.prefix needle s ||
   match s with
   | EmptyString => false
   | String _ r => includes needle r
   end)%bool.

Definition lower (c : ascii) : ascii :=
  let n := nat_of_ascii c in
  if (Nat.leb 65 n && Nat.leb n 90)%bool then ascii_of_nat (n + 32) else c.

Fixpoint toLowerCase (s : string) : string :=
  match s with
  | EmptyString => EmptyString
  | String c r => String (lower c) (toLowerCase r)
  end.

(** *** Decimal digits *)

Definition is_digit (c : ascii) : bool :=
  let n := nat_of_ascii c in (Nat.leb 48 n && Nat.leb n 57)%bool.

Definition digit_val (c : ascii) : Z := (Z.of_nat (nat_of_ascii c) - 48)%Z.

Definition digit_char (d : Z) : ascii := ascii_of_nat (Z.to_nat d + 48).

(** The longest prefix of decimal digits, and what follows it. *)
Fixpoint span_digits (s : string) : string * string :=
  match s with
  | EmptyString => (EmptyString, EmptyString)
  | String c r =>
      if is_digit c then let (d, t) := span_digits r in (String c d, t)
      else (EmptyString, s)
  end.

(** The value of a string of decimal digits, most significant first. *)
Fixpoint digits_val (acc : Z) (s : string) : Z :=
  match s with
  | EmptyString => acc
  | String c r => digits_val (10 * acc + digit_val c)%Z r
  end.

(** The decimal digits of a non-negative integer ([fuel] bounds their
    number). *)
Fixpoint digits_of (fuel : nat) (n : Z) : string :=
  match fuel with
  | O => EmptyString
  | S f =>
      if (n <? 10)%Z then String (digit_char n) EmptyString
      else digits_of f (n / 10)%Z ++ String (digit_char (n mod 10)%Z) EmptyString
  end.

Definition decimal (n : Z) : string := digits_of (S (Z.to_nat (Z.log2 n))) n.

(** *** Numbers met by the parser *)

Inductive jsnum : Type :=
| NaN
| PInf
| NInf
| Fin (q : Q).

Definition js_neg (a : jsnum) : jsnum :=
  match a with
  | NaN => NaN
  | PInf => NInf
  | NInf => PInf
  | Fin q => Fin (- q)
  end.

Definition js_add (a b : jsnum) : jsnum :=
  match a, b with
  | NaN, _ | _, NaN => NaN
  | PInf, NInf | NInf, PInf => NaN
  | PInf, _ | _, PInf => PInf
  | NInf, _ | _, NInf => NInf
  | Fin x, Fin y => Fin (x + y)
  end.

Definition js_sub (a b : jsnum) : jsnum := js_add a (js_neg b).

(** The sign of a finite number: [Gt], [Eq] or [Lt]. *)
Definition q_sign (x : Q) : comparison := (0 ?= x)%Q.

Definition js_mul (a b : jsnum) : jsnum :=
  match a, b with
  | NaN, _ | _, NaN => NaN
  | Fin x, Fin y => Fin (x * y)
  | Fin x, PInf | PInf, Fin x =>
      match q_sign x with Lt => PInf | Eq => NaN | Gt => NInf end
  | Fin x, NInf | NInf, Fin x =>
      match q_sign x with Lt => NInf | Eq => NaN | Gt => PInf end
  | PInf, PInf | NInf, NInf => PInf
  | PInf, NInf | NInf, PInf => NInf
  end.

(** [a < b]; every comparison with [NaN] is false. *)
Definition js_ltb (a b : jsnum) : bool :=
  match a, b with
  | NaN, _ | _, NaN => false
  | _, NInf => false
  | NInf, _ => true
  | PInf, _ => false
  | Fin _, PInf => true
  | Fin x, Fin y => negb (Qle_bool y x)
  end.

Definition js_gtb (a b : jsnum) : bool := js_ltb b a.

(** *** [parseInt] with no radix argument; [None] is [NaN] *)

Definition hex_val (c : ascii) : option Z :=
  let n := nat_of_ascii c in
  if (Nat.leb 48 n && Nat.leb n 57)%bool then Some (Z.of_nat n - 48)%Z
  else if (Nat.leb 97 n && Nat.leb n 102)%bool then Some (Z.of_nat n - 87)%Z
  else if (Nat.leb 65 n && Nat.leb n 70)%bool then Some (Z.of_nat n - 55)%Z
  else None.

(** The value of the longest prefix of hexadecimal digits; [None] when
    that prefix is empty. *)
Fixpoint hex_prefix (acc : option Z) (s : string) : option Z :=
  match s with
  | EmptyString => acc
  | String c r =>
      match hex_val c with
      | Some d =>
          hex_prefix (Some (16 * match acc with Some a => a | None => 0 end + d)%Z) r
      | None => acc
      end
  end.

Definition dec_prefix (s : string) : option Z :=
  match fst (span_digits s) with
  | EmptyString => None
  | d => Some (digits_val 0 d)
  end.

Definition strip_sign (s : string) : bool * string :=
  match s with
  | String "-"%char r => (true, r)
  | String "+"%char r => (false, r)
  | _ => (false, s)
  end.

Definition parseInt (str : string) : option Z :=
  let (neg, s) := strip_sign (trimStart str) in
  let mathInt :=
    match s with
    | String "0"%char (String "x"%char r) => hex_prefix None r
    | String "0"%char (String "X"%char r) => hex_prefix None r
    | _ => dec_prefix s
    end in
  match mathInt with
  | Some z => Some (if neg then (- z)%Z else z)
  | None => None
  end.

(** *** [parseFloat]: the longest prefix that is a [StrDecimalLiteral] *)

(** The exponent part [e], [e+] or [e-] followed by digits; [0] when what
    follows is not a complete exponent part. *)
Definition exponent_part (s : string) : Z :=
  match s with
  | String c r =>
      if (Ascii.eqb c "e" || Ascii.eqb c "E")%bool then
        let (eneg, r') := strip_sign r in
        match fst (span_digits r') with
        | EmptyString => 0%Z
        | d => if eneg then (- digits_val 0 d)%Z else digits_val 0 d
        end
      else 0%Z
  | EmptyString => 0%Z
  end.

(** [m * 10 ^ e]. *)
Definition scale10 (m e : Z) : Q :=
  if (0 <=? e)%Z then inject_Z (m * 10 ^ e)
  else Qmake m (Z.to_pos (10 ^ (- e))).

Definition parseFloat (str : string) : jsnum :=
  let (neg, s) := strip_sign (trimStart str) in
  if String.prefix "Infinity" s then (if neg then NInf else PInf)
  else
    let (ip, s2) := span_digits s in
    let (fp, s3) :=
      match s2 with
      | String "."%char r => span_digits r
      | _ => (EmptyString, s2)
      end in
    match ip, fp with
    | EmptyString, EmptyString => NaN
    | _, _ =>
        let m := digits_val 0 (ip ++ fp) in
        let e := (exponent_part s3 - Z.of_nat (String.length fp))%Z in
        Fin (scale10 (if neg then (- m)%Z else m) e)
    end.

(** A value read from the line array: [lines[i]] is [undefined] past the
    end, and [parseInt(undefined)], [parseFloat(undefined)] are [NaN]. *)
Definition parseIntV (v : option string) : option Z :=
  match v with Some s => parseInt s | None => None end.

Definition parseFloatV (v : option string) : jsnum :=
  match v with Some s => parseFloat s | None => NaN end.

End JS.

(** ** The host: what ECMAScript leaves to the implementation *)

(** [Number.prototype.toString] prints the shortest decimal that identifies
    a double, and the [Math] functions below are only required to
    approximate their real counterparts. *)
Class Host : Type := {
  Number_toString : Q -> string;
  Math_sqrt : Q -> Q;
  Math_atan2 : Q -> Q -> Q;
  Math_cos : Q -> Q;
  Math_sin : Q -> Q
}.

(** [Math.PI], the double nearest to pi: 884279719003555 / 2^48. *)
Definition Math_PI : Q := 884279719003555 # 281474976710656.

Definition Qltb (a b : Q) : bool := negb (Qle_bool b a).

(** [Math.sign]. *)
Definition Math_sign (x : Q) : Q :=
  if Qltb 0 x then 1 else if Qltb x 0 then - (1) else 0.

(** [Math.floor]. *)
Definition Math_floor (x : Q) : Z := Qfloor x.

Fixpoint zeros (n : nat) : string :=
  match n with
  | O => EmptyString
  | S k => String "0" (zeros k)
  end.

(** [Number.prototype.toFixed]: the sign, then the integer [n] nearest to
    [|x| * 10^f] (the larger one on a tie) printed with a point before its
    last [f] digits; from [10^21] on, the host's [toString]. *)
Definition toFixed {host : Host} (x : Q) (f : nat) : string :=
  let s := if Qltb x 0 then "-" else "" in
  let x := Qabs x in
  let m :=
    if Qle_bool (inject_Z (10 ^ 21)) x then Number_toString x
    else
      let n := Qfloor (x * inject_Z (10 ^ Z.of_nat f) + (1 # 2)) in
      let m := JS.decimal n in
      match f with
      | O => m
      | _ =>
          let k := String.length m in
          let m := if (k <=? f)%nat then zeros (f + 1 - k) ++ m else m in
          let k := String.length m in
          substring 0 (k - f) m ++ "." ++ substring (k - f) f m
      end in
  s ++ m.

(** ** The DXF writer, class [SimpleDxfWriter]

    The private [content] array is the state; every method returns the
    array it leaves behind. *)

Module SimpleDxfWriter.
Local Open Scope list_scope.
Local Open Scope Q_scope.

Section Methods.
Context {host : Host}.

Definition content : Type := list string.

Definition header : content :=
  [ "0"; "SECTION"; "2"; "HEADER"; "9"; "$ACADVER"; "1"; "AC1009"; "0"; "ENDSEC";
    "0"; "SECTION"; "2"; "TABLES";
    "0"; "TABLE"; "2"; "LAYER"; "70"; "6";
    "0"; "LAYER"; "2"; "0"; "70"; "0"; "62"; "7"; "6"; "CONTINUOUS";
    "0"; "LAYER"; "2"; "CUT_OUTER"; "70"; "0"; "62"; "7"; "6"; "CONTINUOUS";
    "0"; "LAYER"; "2"; "CUT_INNER"; "70"; "0"; "62"; "1"; "6"; "CONTINUOUS";
    "0"; "LAYER"; "2"; "BEND"; "70"; "0"; "62"; "2"; "6"; "DASHED";
    "0"; "LAYER"; "2"; "DIMENSIONS"; "70"; "0"; "62"; "3"; "6"; "CONTINUOUS";
    "0"; "LAYER"; "2"; "TEXT"; "70"; "0"; "62"; "4"; "6"; "CONTINUOUS";
    "0"; "ENDTAB";
    "0"; "ENDSEC";
    "0"; "SECTION"; "2"; "ENTITIES" ].

(** [new SimpleDxfWriter()]. *)
Definition new : content := [] ++ header.

Definition addLine (x1 y1 x2 y2 : Q) (layer : string) (color : Q) (c : content) : content :=
  c ++ [ "0"; "LINE";
         "8"; layer;
         "62"; Number_toString color;
         "10"; toFixed x1 3; "20"; toFixed y1 3; "30"; "0.0";
         "11"; toFixed x2 3; "21"; toFixed y2 3; "31"; "0.0" ].

Definition addVertex (layer : string) (c : content) (p : Q * Q) : content :=
  c ++ [ "0"; "VERTEX"; "8"; layer; "10"; toFixed (fst p) 3; "20"; toFixed (snd p) 3; "30"; "0.0" ].

Definition addPolyline (points : list (Q * Q)) (layer : string) (color : Q) (closed : bool)
    (c : content) : content :=
  let c := c ++ [ "0"; "POLYLINE"; "8"; layer; "62"; Number_toString color; "66"; "1";
                  "10"; "0.0"; "20"; "0.0"; "30"; "0.0"; "70"; if closed then "1" else "0" ] in
  let c := fold_left (addVertex layer) points c in
  c ++ [ "0"; "SEQEND" ].

Definition addCircle (cx cy radius : Q) (layer : string) (color : Q) (c : content) : content :=
  c ++ [ "0"; "CIRCLE";
         "8"; layer;
         "62"; Number_toString color;
         "10"; toFixed cx 3; "20"; toFixed cy 3; "30"; "0.0";
         "40"; toFixed radius 3 ].

Definition addText (text : string) (x y height : Q) (layer : string) (rotation : Q)
    (c : content) : content :=
  c ++ [ "0"; "TEXT";
         "8"; layer;
         "10"; toFixed x 3; "20"; toFixed y 3; "30"; "0.0";
         "40"; Number_toString height;
         "50"; Number_toString rotation;
         "1"; text ].

(** The distance [addDimension] computes between its two points. *)
Definition dimDist (x1 y1 x2 y2 : Q) : Q :=
  Math_sqrt ((x2 - x1) * (x2 - x1) + (y2 - y1) * (y2 - y1)).

(** The rotation [addDimension] gives its text, from the angle of the
    measured line in radians. *)
Definition dimTextRot (angle : Q) : Q :=
  let textRot := angle * 180 / Math_PI in
  if (Qltb 90 textRot || Qltb textRot (- (90)))%bool then textRot + 180 else textRot.

Definition addDimension (x1 y1 x2 y2 : Q) (value : option Q) (offset : Q) (c : content)
    : content :=
  let dist := dimDist x1 y1 x2 y2 in
  if Qltb dist (1 # 10) then c
  else
    let val := match value with Some v => v | None => dist end in
    let angle := Math_atan2 (y2 - y1) (x2 - x1) in
    let perpAngle := angle + Math_PI / 2 in
    let gap := 2 in
    let overshoot := 2 in
    let extStartX1 := x1 + Math_cos perpAngle * (Math_sign offset * gap) in
    let extStartY1 := y1 + Math_sin perpAngle * (Math_sign offset * gap) in
    let extStartX2 := x2 + Math_cos perpAngle * (Math_sign offset * gap) in
    let extStartY2 := y2 + Math_sin perpAngle * (Math_sign offset * gap) in
    let offX := Math_cos perpAngle * offset in
    let offY := Math_sin perpAngle * offset in
    let dimX1 := x1 + offX in
    let dimY1 := y1 + offY in
    let dimX2 := x2 + offX in
    let dimY2 := y2 + offY in
    let extEndX1 := dimX1 + Math_cos perpAngle * (Math_sign offset * overshoot) in
    let extEndY1 := dimY1 + Math_sin perpAngle * (Math_sign offset * overshoot) in
    let extEndX2 := dimX2 + Math_cos perpAngle * (Math_sign offset * overshoot) in
    let extEndY2 := dimY2 + Math_sin perpAngle * (Math_sign offset * overshoot) in
    let c := addLine extStartX1 extStartY1 extEndX1 extEndY1 "DIMENSIONS" 3 c in
    let c := addLine extStartX2 extStartY2 extEndX2 extEndY2 "DIMENSIONS" 3 c in
    let c := addLine dimX1 dimY1 dimX2 dimY2 "DIMENSIONS" 3 c in
    let tickSize := 2 in
    let tickAngle := angle + Math_PI / 4 in
    let tick1X := Math_cos tickAngle * tickSize in
    let tick1Y := Math_sin tickAngle * tickSize in
    let c := addLine (dimX1 - tick1X) (dimY1 - tick1Y) (dimX1 + tick1X) (dimY1 + tick1Y)
               "DIMENSIONS" 3 c in
    let c := addLine (dimX2 - tick1X) (dimY2 - tick1Y) (dimX2 + tick1X) (dimY2 + tick1Y)
               "DIMENSIONS" 3 c in
    let midX := (dimX1 + dimX2) / 2 in
    let midY := (dimY1 + dimY2) / 2 in
    let textGap := 2 in
    let textX := midX + Math_cos perpAngle * textGap in
    let textY := midY + Math_sin perpAngle * textGap in
    let textStr := toFixed val 1 in
    let textHeight := 35 # 10 in
    let textWidthEstimate :=
      inject_Z (Z.of_nat (String.length textStr)) * (textHeight * (6 # 10)) in
    let textRot := dimTextRot angle in
    addText textStr (textX - textWidthEstimate / 2) (textY - textHeight / 2) textHeight
      "TEXT" textRot c.

Definition addCallout (x y : Q) (text : string) (angleDeg length : Q) (c : content) : content :=
  let angleRad := angleDeg * Math_PI / 180 in
  let endX := x + Math_cos angleRad * length in
  let endY := y + Math_sin angleRad * length in
  let c := addLine x y endX endY "DIMENSIONS" 3 c in
  let landingLen := 10 in
  let direction := Math_sign (Math_cos angleRad) in
  let landEndX := endX + landingLen * direction in
  let c := addLine endX endY landEndX endY "DIMENSIONS" 3 c in
  let textHeight := 35 # 10 in
  let textX :=
    if Qltb 0 direction then endX + 2
    else endX - 2 - inject_Z (Z.of_nat (String.length text)) * textHeight * (6 # 10) in
  addText text textX (endY + 2) textHeight "TEXT" 0 c.

Definition trailer : content := [ "0"; "ENDSEC"; "0"; "EOF" ].

(** [toString] pushes the trailer on [content] and joins it: it returns
    the text and the array it leaves behind. *)
Definition toString (c : content) : string * content :=
  let c := c ++ trailer in
  (JS.join_nl c, c).

(** *** Calls as data

    A drawing is built by a sequence of method calls on one writer;
    [run] performs the calls in order. *)
Inductive call : Type :=
| AddLine (x1 y1 x2 y2 : Q) (layer : string) (color : Q)
| AddPolyline (points : list (Q * Q)) (layer : string) (color : Q) (closed : bool)
| AddCircle (cx cy radius : Q) (layer : string) (color : Q)
| AddText (text : string) (x y height : Q) (layer : string) (rotation : Q)
| AddDimension (x1 y1 x2 y2 : Q) (value : option Q) (offset : Q)
| AddCallout (x y : Q) (text : string) (angleDeg length : Q).

Definition exec (c : content) (k : call) : content :=
  match k with
  | AddLine x1 y1 x2 y2 layer color => addLine x1 y1 x2 y2 layer color c
  | AddPolyline points layer color closed => addPolyline points layer color closed c
  | AddCircle cx cy radius layer color => addCircle cx cy radius layer color c
  | AddText text x y height layer rotation => addText text x y height layer rotation c
  | AddDimension x1 y1 x2 y2 value offset => addDimension x1 y1 x2 y2 value offset c
  | AddCallout x y text angleDeg length => addCallout x y text angleDeg length c
  end.

Definition run (ks : list call) (c : content) : content := fold_left exec ks c.

End Methods.
End SimpleDxfWriter.

(** ** The preview parser, [parseDxf] *)

Module Parser.
Import JS.
Local Open Scope list_scope.

(** [DxfEntity], one constructor per value of its [type] tag.  A field
    assigned from a pair's value holds [undefined] ([None]) when the line
    array ends between a code and its value. *)
Inductive DxfEntity : Type :=
| LINE (layer : option string) (color : option Z) (p0 p1 : jsnum * jsnum)
| CIRCLE (layer : option string) (color : option Z) (center : jsnum * jsnum) (radius : jsnum)
| TEXT (layer : option string) (color : option Z) (x y height : jsnum) (text : option string)
| POLYLINE (layer : option string) (color : option Z) (points : list (jsnum * jsnum))
    (closed : bool).

Record DxfBounds : Type := mkBounds {
  minX : jsnum; minY : jsnum; maxX : jsnum; maxY : jsnum
}.

Definition updateBounds (x y : jsnum) (b : DxfBounds) : DxfBounds :=
  let b := if js_ltb x (minX b) then mkBounds x (minY b) (maxX b) (maxY b) else b in
  let b := if js_gtb x (maxX b) then mkBounds (minX b) (minY b) x (maxY b) else b in
  let b := if js_ltb y (minY b) then mkBounds (minX b) y (maxX b) (maxY b) else b in
  let b := if js_gtb y (maxY b) then mkBounds (minX b) (minY b) (maxX b) y else b in
  b.

(** What [parseDxf] has accumulated: the [entities] array and the four
    bound variables. *)
Record pstate : Type := mkState {
  entities : list DxfEntity;
  bounds : DxfBounds
}.

Definition push (e : DxfEntity) (st : pstate) : pstate :=
  mkState (entities st ++ [e]) (bounds st).

Definition bound (x y : jsnum) (st : pstate) : pstate :=
  mkState (entities st) (updateBounds x y (bounds st)).

(** How a run of [parseDxf] ends. *)
Inductive outcome (A : Type) : Type :=
| Ok (a : A)
| TypeError            (* a property read on [undefined] *)
| OutOfFuel.           (* the model's loop bound was too small *)
Arguments Ok {A} a.
Arguments TypeError {A}.
Arguments OutOfFuel {A}.

(** A code and value pair; the index [i] is the list of lines not yet
    read. [next] and [peek] return [null] at the end of the array; from a
    last single line [next] makes a pair with an [undefined] value and
    leaves the index past the end. *)
Definition pair : Type := option Z * option string.

Definition next (lines : list string) : option (pair * list string) :=
  match lines with
  | [] => None
  | [c] => Some ((parseInt c, None), [])
  | c :: v :: rest => Some ((parseInt c, Some v), rest)
  end.

Definition peek (lines : list string) : option pair :=
  match lines with
  | [] => None
  | [c] => Some (parseInt c, None)
  | c :: v :: _ => Some (parseInt c, Some v)
  end.

Definition code_is (k : Z) (code : option Z) : bool :=
  match code with Some z => Z.eqb z k | None => false end.

Definition value_is (s : string) (v : option string) : bool :=
  match v with Some x => String.eqb x s | None => false end.

(** The loop [p = peek(); while (p && p.code !== 0) { next(); ...; p = peek(); }]
    shared by the five record readers: [set] is the loop body after
    [next()]. It returns the record and the index it stops at. *)
Fixpoint readFields {A : Type} (set : pair -> A -> A) (a : A) (lines : list string)
    : A * list string :=
  match lines with
  | [] => (a, [])
  | c :: tl =>
      if code_is 0 (parseInt c) then (a, lines)
      else match tl with
           | [] => (set (parseInt c, None) a, [])
           | v :: rest => readFields set (set (parseInt c, Some v) a) rest
           end
  end.

Definition setLine (p : pair) (e : DxfEntity) : DxfEntity :=
  match e with
  | LINE layer color p0 p1 =>
      let '(code, value) := p in
      let layer := if code_is 8 code then value else layer in
      let color := if code_is 62 code then parseIntV value else color in
      let p0 := if code_is 10 code then (parseFloatV value, snd p0) else p0 in
      let p0 := if code_is 20 code then (fst p0, parseFloatV value) else p0 in
      let p1 := if code_is 11 code then (parseFloatV value, snd p1) else p1 in
      let p1 := if code_is 21 code then (fst p1, parseFloatV value) else p1 in
      LINE layer color p0 p1
  | _ => e
  end.

Definition setCircle (p : pair) (e : DxfEntity) : DxfEntity :=
  match e with
  | CIRCLE layer color center radius =>
      let '(code, value) := p in
      let layer := if code_is 8 code then value else layer in
      let color := if code_is 62 code then parseIntV value else color in
      let center := if code_is 10 code then (parseFloatV value, snd center) else center in
      let center := if code_is 20 code then (fst center, parseFloatV value) else center in
      let radius := if code_is 40 code then parseFloatV value else radius in
      CIRCLE layer color center radius
  | _ => e
  end.

Definition setText (p : pair) (e : DxfEntity) : DxfEntity :=
  match e with
  | TEXT layer color x y height text =>
      let '(code, value) := p in
      let layer := if code_is 8 code then value else layer in
      let color := if code_is 62 code then parseIntV value else color in
      let x := if code_is 10 code then parseFloatV value else x in
      let y := if code_is 20 code then parseFloatV value else y in
      let height := if code_is 40 code then parseFloatV value else height in
      let text := if code_is 1 code then value else text in
      TEXT layer color x y height text
  | _ => e
  end.

(** [parseInt(p.value) & 1]: the low bit of the integer, [0] for [NaN]. *)
Definition low_bit (v : option string) : bool :=
  match parseIntV v with Some z => Z.odd z | None => false end.

Definition setPolyline (p : pair) (e : DxfEntity) : DxfEntity :=
  match e with
  | POLYLINE layer color points closed =>
      let '(code, value) := p in
      let layer := if code_is 8 code then value else layer in
      let color := if code_is 62 code then parseIntV value else color in
      let closed := if (code_is 70 code && low_bit value)%bool then true else closed in
      POLYLINE layer color points closed
  | _ => e
  end.

Definition setVertex (p : pair) (v : jsnum * jsnum) : jsnum * jsnum :=
  let '(code, value) := p in
  let v := if code_is 10 code then (parseFloatV value, snd v) else v in
  let v := if code_is 20 code then (fst v, parseFloatV value) else v in
  v.

Definition zero : jsnum := Fin 0.

(** The [while (true)] loop that reads the vertices of a polyline. *)
Fixpoint readVertices (fuel : nat) (lines : list string) (points : list (jsnum * jsnum))
    (b : DxfBounds) : outcome (list (jsnum * jsnum) * DxfBounds * list string) :=
  match fuel with
  | O => OutOfFuel
  | S fuel =>
      match next lines with
      | None => Ok (points, b, lines)
      | Some (vHeader, rest) =>
          if value_is "SEQEND" (snd vHeader) then Ok (points, b, rest)
          else if value_is "VERTEX" (snd vHeader) then
            let '(v, rest) := readFields setVertex (zero, zero) rest in
            readVertices fuel rest (points ++ [v]) (updateBounds (fst v) (snd v) b)
          else readVertices fuel rest points b
      end
  end.

(** The body of [if (inEntities && pair.code === 0)]: the record of type
    [type] that starts at [lines]. *)
Definition readEntity (fuel : nat) (type : option string) (lines : list string) (st : pstate)
    : outcome (pstate * list string) :=
  if value_is "LINE" type then
    let '(line, rest) :=
      readFields setLine (LINE (Some "0") (Some 7%Z) (zero, zero) (zero, zero)) lines in
    match line with
    | LINE _ _ p0 p1 =>
        Ok (push line (bound (fst p1) (snd p1) (bound (fst p0) (snd p0) st)), rest)
    | _ => Ok (st, rest)
    end
  else if value_is "CIRCLE" type then
    let '(circle, rest) :=
      readFields setCircle (CIRCLE (Some "0") (Some 7%Z) (zero, zero) zero) lines in
    match circle with
    | CIRCLE _ _ center radius =>
        let st := bound (js_sub (fst center) radius) (js_sub (snd center) radius) st in
        let st := bound (js_add (fst center) radius) (js_add (snd center) radius) st in
        Ok (push circle st, rest)
    | _ => Ok (st, rest)
    end
  else if value_is "TEXT" type then
    let '(text, rest) :=
      readFields setText (TEXT (Some "0") (Some 7%Z) zero zero (Fin 10) (Some "")) lines in
    match text with
    | TEXT _ _ x y height t =>
        let st := bound x y st in
        match t with
        | None => TypeError
        | Some t =>
            let len := Fin (inject_Z (Z.of_nat (String.length t))) in
            let st := bound (js_add x (js_mul (js_mul len height) (Fin (6 # 10))))
                        (js_add y height) st in
            Ok (push text st, rest)
        end
    | _ => Ok (st, rest)
    end
  else if value_is "POLYLINE" type then
    let '(poly, rest) := readFields setPolyline (POLYLINE (Some "0") (Some 7%Z) [] false) lines in
    match poly with
    | POLYLINE layer color _ closed =>
        match readVertices fuel rest [] (bounds st) with
        | Ok (points, b, rest) =>
            Ok (push (POLYLINE layer color points closed) (mkState (entities st) b), rest)
        | TypeError => TypeError
        | OutOfFuel => OutOfFuel
        end
    | _ => Ok (st, rest)
    end
  else Ok (st, lines).

(** The test on a section start: [p2 = next()] is read when the pair is
    [0 SECTION], and the loop takes [continue] with [inEntities = true] when
    [p2] is [2 ENTITIES]. It returns whether [continue] is taken and the
    index afterwards. *)
Definition sectionStart (pair : pair) (lines : list string) : bool * list string :=
  if (code_is 0 (fst pair) && value_is "SECTION" (snd pair))%bool then
    match next lines with
    | Some (p2, lines') => ((code_is 2 (fst p2) && value_is "ENTITIES" (snd p2))%bool, lines')
    | None => (false, lines)
    end
  else (false, lines).

(** The main loop [while (i < lines.length)]. *)
Fixpoint mainLoop (fuel : nat) (lines : list string) (inEntities : bool) (st : pstate)
    : outcome pstate :=
  match fuel with
  | O => OutOfFuel
  | S fuel =>
      match next lines with
      | None => Ok st
      | Some (pair, lines) =>
          match sectionStart pair lines with
          | (true, lines) => mainLoop fuel lines true st
          | (false, lines) =>
              let inEntities :=
                if (code_is 0 (fst pair) && value_is "ENDSEC" (snd pair))%bool then false
                else inEntities in
              if (inEntities && code_is 0 (fst pair))%bool then
                match readEntity fuel (snd pair) lines st with
                | Ok (st, lines) => mainLoop fuel lines inEntities st
                | TypeError => TypeError
                | OutOfFuel => OutOfFuel
                end
              else mainLoop fuel lines inEntities st
          end
      end
  end.

Definition initial : pstate := mkState [] (mkBounds PInf PInf NInf NInf).

Definition fallback : DxfBounds := mkBounds (Fin 0) (Fin 0) (Fin 100) (Fin 100).

(** [if (minX === Infinity) { minX=0; maxX=100; minY=0; maxY=100; }] and the
    returned object [{ entities, bounds }]. *)
Definition finish (st : pstate) : pstate :=
  match minX (bounds st) with
  | PInf => mkState (entities st) fallback
  | _ => st
  end.

Definition parseLines (lines : list string) : outcome pstate :=
  match mainLoop (S (List.length lines)) lines false initial with
  | Ok st => Ok (finish st)
  | TypeError => TypeError
  | OutOfFuel => OutOfFuel
  end.

Definition parseDxf (content : string) : outcome pstate :=
  parseLines (map trim (split_nl content)).

End Parser.

(** ** A reference host

    One concrete choice for the functions of [Host], to run the model on
    examples. [toString] prints the exact decimal expansion (cut after 17
    fraction digits), which is what a double with a short expansion prints;
    [sqrt] is exact to nine decimals; [atan2] has the values ECMAScript
    names on the axes and a quadratic approximation elsewhere; [sin] and
    [cos] are Taylor polynomials. The model's theorems hold for every
    host; this one only runs examples. *)

Module Ref.
Local Open Scope Q_scope.

Fixpoint frac_digits (fuel : nat) (r den : Z) : string :=
  match fuel with
  | O => EmptyString
  | S f =>
      if (r =? 0)%Z then EmptyString
      else String (JS.digit_char (10 * r / den)%Z) (frac_digits f (10 * r mod den)%Z den)
  end.

Definition toString (q : Q) : string :=
  let s := if Qltb q 0 then "-" else "" in
  let n := Z.abs (Qnum q) in
  let d := Zpos (Qden q) in
  let m := JS.decimal (n / d)%Z in
  match frac_digits 17 (n mod d)%Z d with
  | EmptyString => (s ++ m)%string
  | fd => (s ++ m ++ "." ++ fd)%string
  end.

Definition sqrt (q : Q) : Q :=
  Qred (Z.sqrt (Qfloor (q * inject_Z (10 ^ 18))) # Z.to_pos (10 ^ 9)).

(** [atan] on [[-1, 1]]. *)
Definition atan_unit (z : Q) : Q := Math_PI / 4 * z + (273 # 1000) * z * (1 - Qabs z).

Definition atan (z : Q) : Q :=
  if Qle_bool (Qabs z) 1 then atan_unit z
  else if Qltb 0 z then Math_PI / 2 - atan_unit (/ z)
  else - (Math_PI / 2) - atan_unit (/ z).

Definition atan2 (y x : Q) : Q :=
  Qred (if Qltb 0 x then atan (y / x)
        else if Qltb x 0 then
          (if Qle_bool 0 y then atan (y / x) + Math_PI else atan (y / x) - Math_PI)
        else if Qltb 0 y then Math_PI / 2
        else if Qltb y 0 then - (Math_PI / 2)
        else 0).

(** The sum of [x^(2k+1) / (2k+1)!] with alternating signs, [n] terms from
    the term [t] of index [k]. *)
Fixpoint sin_series (n : nat) (k : Z) (t x2 : Q) : Q :=
  match n with
  | O => 0
  | S n' => t + sin_series n' (k + 1)%Z
                  (Qred (- t * x2 / inject_Z ((2 * k + 2) * (2 * k + 3)))) x2
  end.

Definition reduce (x : Q) : Q :=
  x - 2 * Math_PI * inject_Z (Qfloor ((x + Math_PI) / (2 * Math_PI))).

(** Twelve decimals are kept. *)
Definition cut12 (q : Q) : Q := Qred (Qfloor (q * inject_Z (10 ^ 12)) # Z.to_pos (10 ^ 12)).

Definition sin (x : Q) : Q :=
  let r := cut12 (reduce x) in
  cut12 (sin_series 9 0 r (cut12 (r * r))).

Definition cos (x : Q) : Q := sin (x + Math_PI / 2).

#[export] Instance host : Host := {
  Number_toString := toString;
  Math_sqrt := sqrt;
  Math_atan2 := atan2;
  Math_cos := cos;
  Math_sin := sin
}.

End Ref.

(** ** The input data, [types.ts] *)

Module Hole.
Inductive shape : Type := Circle | Rect.
Record t : Type := mk {
  Shape : shape;
  X : Q;
  Y : Q;
  W_or_Dia : Q;
  H : option Q
}.
End Hole.

Module PartGeometry.
Inductive type : Type := Panel | Profile.
Record t : Type := mk {
  Part_Name : string;
  Type_ : type;
  Material : string;
  Qty : Q;
  Width_mm : Q;
  Height_mm : Q;
  Notes : option string;
  Holes : option (list Hole.t)
}.
End PartGeometry.

Module ExtractedData.
Record t : Type := mk {
  Project_ID : string;
  Unit_Ref : string;
  Global_Dims : Q * Q * Q;                 (* L, W, H *)
  Base_Height : Q;
  Material_Specs : string * string;        (* Outer_Material, Inner_Material *)
  Insulation : Q;                          (* Material.Insulation *)
  Cuts : (Q * Q) * (Q * Q);                (* Fresh_Air, Supply_Air: W, H *)
  Parts_List : list PartGeometry.t
}.
End ExtractedData.

Module GeneratedFile.
Inductive type : Type := dxf | csv.
Record t : Type := mk {
  name : string;
  content : string;
  type_ : type;
  description : string
}.
End GeneratedFile.

(** ** The geometry engine *)

Module Geometry.
Import SimpleDxfWriter.
Local Open Scope list_scope.
Local Open Scope Q_scope.

(** *** [parseProfileDims]

    The regular expression [(\d+)[xX](\d+)(?:[xX](\d+))?]: a match starts at
    a run of digits that is followed by [x] or [X] and a digit. *)
Definition is_x (c : ascii) : bool := (Ascii.eqb c "x" || Ascii.eqb c "X")%bool.

Definition matchDimsAt (s : string) : option (string * string * option string) :=
  match JS.span_digits s with
  | (String _ _ as d1, String c r2) =>
      if is_x c then
        match JS.span_digits r2 with
        | (String _ _ as d2, r3) =>
            let g3 :=
              match r3 with
              | String c3 r4 =>
                  if is_x c3 then
                    match JS.span_digits r4 with
                    | (String _ _ as d3, _) => Some d3
                    | _ => None
                    end
                  else None
              | EmptyString => None
              end in
            Some (d1, d2, g3)
        | _ => None
        end
      else None
  | _ => None
  end.

(** [name.match(...)]: the leftmost match. *)
Fixpoint matchDims (name : string) : option (string * string * option string) :=
  match matchDimsAt name with
  | Some m => Some m
  | None =>
      match name with
      | EmptyString => None
      | String _ r => matchDims r
      end
  end.

(** [parseFloat] on a string of digits. *)
Definition digitsQ (d : string) : Q := inject_Z (JS.digits_val 0 d).

Record ProfileDims : Type := mkDims { web : Q; flange : Q; lip : Q }.

Definition parseProfileDims (name : string) (defaultWeb : Q) : ProfileDims :=
  match matchDims name with
  | Some (m1, m2, m3) =>
      mkDims (digitsQ m1) (digitsQ m2) (match m3 with Some d => digitsQ d | None => 0 end)
  | None => mkDims defaultWeb 35 15
  end.

(** *** [calculateFlatPattern] *)

Record FlatPattern : Type := mkFlat { flatLength : Q; bendPositions : list Q }.

(** [segments.reduce((a, b) => a + b, 0)]. *)
Definition sum (segments : list Q) : Q := fold_left Qplus segments 0.

(** [let cumOuter = 0; for (k = 0; k <= i; k++) cumOuter += segments[k]]. *)
Definition cumOuter (segments : list Q) (i : nat) : Q := sum (firstn (S i) segments).

Definition ofNat (n : nat) : Q := inject_Z (Z.of_nat n).

Definition calculateFlatPattern (segments : list Q) (thickness : Q) : FlatPattern :=
  let BEND_DEDUCTION := 2 * thickness in
  let totalOuter := sum segments in
  let totalDeductions := (ofNat (List.length segments) - 1) * BEND_DEDUCTION in
  let finalFlatLength := totalOuter - totalDeductions in
  (* for (i = 0; i < segments.length - 1; i++) *)
  let bendPositions :=
    map (fun i =>
           let correction := ofNat i * BEND_DEDUCTION + BEND_DEDUCTION / 2 in
           cumOuter segments i - correction)
        (seq 0 (List.length segments - 1)) in
  mkFlat finalFlatLength bendPositions.

Section Generate.
Context {host : Host}.

(** *** The tray layout of a panel, in [generateFabricationFiles] *)

Definition FLANGE : Q := 35.
Definition BEND_DEDUCTION : Q := 15 # 10.

Definition flatSize (finished : Q) : Q := finished + 2 * FLANGE - 2 * BEND_DEDUCTION.

Definition notchSize : Q := FLANGE - BEND_DEDUCTION / 2.

(** The twelve points [pts] of the notched box. *)
Definition trayPts (flatW flatH : Q) : list (Q * Q) :=
  [ (notchSize, 0); (flatW - notchSize, 0);
    (flatW - notchSize, notchSize); (flatW, notchSize);
    (flatW, flatH - notchSize); (flatW - notchSize, flatH - notchSize);
    (flatW - notchSize, flatH); (notchSize, flatH);
    (notchSize, flatH - notchSize); (0, flatH - notchSize);
    (0, notchSize); (notchSize, notchSize) ].

Definition holeSpacing : Q := 150.
Definition rivetDia : Q := 4.
Definition flangeMid : Q := notchSize / 2.

(** [Math.floor((flat - 2*notchSize) / holeSpacing)]. *)
Definition numHoles (flat : Q) : Z := Math_floor ((flat - 2 * notchSize) / holeSpacing).

(** [(flat - 2*notchSize) / (numHoles + 1)]; the division by zero that
    JavaScript answers with an infinity is only met when no hole is
    placed, and is [0] here. *)
Definition spacing (flat : Q) : Q := (flat - 2 * notchSize) / (inject_Z (numHoles flat) + 1).

(** [for (let i = 1; i <= n; i++) body(i)]. *)
Definition forUpTo {A : Type} (n : Z) (body : Z -> list A) : list A :=
  flat_map body (map Z.of_nat (seq 1 (Z.to_nat n))).

(** The holes of the bottom and top flanges. *)
Definition rivetsX (flatW flatH : Q) : list call :=
  forUpTo (numHoles flatW) (fun i =>
    let x := notchSize + inject_Z i * spacing flatW in
    [ AddCircle x flangeMid (rivetDia / 2) "CUT_INNER" 1;
      AddCircle x (flatH - flangeMid) (rivetDia / 2) "CUT_INNER" 1 ]).

(** The holes of the left and right flanges. *)
Definition rivetsY (flatW flatH : Q) : list call :=
  forUpTo (numHoles flatH) (fun i =>
    let y := notchSize + inject_Z i * spacing flatH in
    [ AddCircle flangeMid y (rivetDia / 2) "CUT_INNER" 1;
      AddCircle (flatW - flangeMid) y (rivetDia / 2) "CUT_INNER" 1 ]).

(** The calls of the branch [if (isTray)], before the holes are remapped. *)
Definition trayCalls (W H : Q) : list call :=
  let flatW := flatSize W in
  let flatH := flatSize H in
  [ AddPolyline (trayPts flatW flatH) "CUT_OUTER" 7 true;
    AddLine notchSize notchSize notchSize (flatH - notchSize) "BEND" 2;
    AddText "UP 90" (notchSize - 5) (flatH / 2) (35 # 10) "TEXT" 90;
    AddLine (flatW - notchSize) notchSize (flatW - notchSize) (flatH - notchSize) "BEND" 2;
    AddText "UP 90" (flatW - notchSize + 2) (flatH / 2) (35 # 10) "TEXT" 90;
    AddLine notchSize notchSize (flatW - notchSize) notchSize "BEND" 2;
    AddText "UP 90" (flatW / 2) (notchSize - 5) (35 # 10) "TEXT" 0;
    AddLine notchSize (flatH - notchSize) (flatW - notchSize) (flatH - notchSize) "BEND" 2;
    AddText "UP 90" (flatW / 2) (flatH - notchSize + 2) (35 # 10) "TEXT" 0 ]
  ++ rivetsX flatW flatH
  ++ rivetsY flatW flatH
  ++ [ AddDimension 0 0 flatW 0 (Some flatW) (- (50));
       AddDimension flatW 0 flatW flatH (Some flatH) 50;
       AddDimension 0 0 notchSize 0 (Some FLANGE) (- (25)) ].

(** The calls of the branch [else] (flat plate). *)
Definition flatCalls (W H : Q) : list call :=
  [ AddPolyline [(0, 0); (W, 0); (W, H); (0, H)] "CUT_OUTER" 7 true;
    AddDimension 0 0 W 0 (Some W) (- (40));
    AddDimension W 0 W H (Some H) 40 ].

(** [!panel.Notes?.toLowerCase().includes('flat')]. *)
Definition isTray (panel : PartGeometry.t) : bool :=
  negb match PartGeometry.Notes panel with
       | Some notes => JS.includes "flat" (JS.toLowerCase notes)
       | None => false
       end.

(** [h.X += notchSize; h.Y += notchSize]. *)
Definition remapHole (h : Hole.t) : Hole.t :=
  Hole.mk (Hole.Shape h) (Hole.X h + notchSize) (Hole.Y h + notchSize) (Hole.W_or_Dia h)
    (Hole.H h).

(** [hole.H || hole.W_or_Dia]: [undefined] and [0] are falsy. *)
Definition heightOr (hole : Hole.t) : Q :=
  match Hole.H hole with
  | Some h => if Qeq_bool h 0 then Hole.W_or_Dia hole else h
  | None => Hole.W_or_Dia hole
  end.

(** The body of [panel.Holes.forEach((hole, idx) => ...)]. *)
Definition holeCalls (hole : Hole.t) (idx : nat) : list call :=
  let cx := Hole.X hole in
  let cy := Hole.Y hole in
  match Hole.Shape hole with
  | Hole.Circle =>
      let radius := Hole.W_or_Dia hole / 2 in
      [ AddCircle cx cy radius "CUT_INNER" 1;
        AddCallout (cx + radius) (cy + radius) ("%%C" ++ toFixed (Hole.W_or_Dia hole) 1)%string
          45 15 ]
  | Hole.Rect =>
      let halfW := Hole.W_or_Dia hole / 2 in
      let halfH := heightOr hole / 2 in
      [ AddPolyline [ (cx - halfW, cy - halfH); (cx + halfW, cy - halfH);
                      (cx + halfW, cy + halfH); (cx - halfW, cy + halfH) ] "CUT_INNER" 1 true;
        AddCallout (cx + halfW) (cy + halfH)
          (Number_toString (Hole.W_or_Dia hole) ++ "x" ++ Number_toString (heightOr hole))%string
          45 15 ]
  end
  ++ (if Qltb 10 cx
      then [ AddDimension 0 cy cx cy (Some cx) (- (cy + 15 + ofNat idx * 10)) ] else [])
  ++ (if Qltb 10 cy
      then [ AddDimension cx 0 cx cy (Some cy) (cx + 15 + ofNat idx * 10) ] else []).

Fixpoint forEachHole (holes : list Hole.t) (idx : nat) : list call :=
  match holes with
  | [] => []
  | hole :: rest => holeCalls hole idx ++ forEachHole rest (S idx)
  end.

(** The body of [panels.forEach(panel => ...)]: the file pushed and the
    panel object as the body leaves it. *)
Definition drawPanel (Unit_Ref : string) (panel : PartGeometry.t)
    : GeneratedFile.t * PartGeometry.t :=
  let W := PartGeometry.Width_mm panel in
  let H := PartGeometry.Height_mm panel in
  let '(calls, panel, W, H) :=
    if isTray panel then
      let panel :=
        PartGeometry.mk (PartGeometry.Part_Name panel) (PartGeometry.Type_ panel)
          (PartGeometry.Material panel) (PartGeometry.Qty panel) (PartGeometry.Width_mm panel)
          (PartGeometry.Height_mm panel) (PartGeometry.Notes panel)
          (match PartGeometry.Holes panel with
           | Some holes => Some (map remapHole holes)
           | None => None
           end) in
      (trayCalls W H, panel, flatSize W, flatSize H)
    else (flatCalls W H, panel, W, H) in
  let calls :=
    calls ++ match PartGeometry.Holes panel with
             | Some holes => forEachHole holes 0
             | None => []
             end in
  let label :=
    (Unit_Ref ++ " - " ++ PartGeometry.Part_Name panel ++ " ("
       ++ PartGeometry.Material panel ++ ")")%string in
  let calls := calls ++ [ AddText label 20 (H / 2) 20 "TEXT" 0 ] in
  let dxf := run calls new in
  (GeneratedFile.mk
     (Unit_Ref ++ "_" ++ PartGeometry.Part_Name panel ++ ".dxf")%string
     (fst (toString dxf))
     GeneratedFile.dxf
     ("Drawing: " ++ PartGeometry.Part_Name panel ++ " (" ++ toFixed W 0 ++ "x"
        ++ toFixed H 0 ++ ")")%string,
   panel).

(** [bendPositions.forEach((pos, idx) => ...)], with the variable [prevY]. *)
Fixpoint forEachBend (length : Q) (bends : list Q) (idx : nat) (prevY : Q) : list call * Q :=
  match bends with
  | [] => ([], prevY)
  | pos :: rest =>
      let (calls, last) := forEachBend length rest (S idx) pos in
      ([ AddLine 0 pos length pos "BEND" 2;
         AddText "UP 90" 10 (pos - 2) (35 # 10) "TEXT" 0;
         AddDimension 0 0 0 pos (Some pos) (- (30) - ofNat idx * 10);
         AddDimension length prevY length pos (Some (pos - prevY)) 20 ] ++ calls, last)
  end.

(** The body of [profiles.forEach(prof => ...)]. *)
Definition drawProfile (Unit_Ref : string) (prof : PartGeometry.t) : GeneratedFile.t :=
  let defaultWeb :=
    if Qeq_bool (PartGeometry.Height_mm prof) 0 then 100 else PartGeometry.Height_mm prof in
  let dims := parseProfileDims (PartGeometry.Part_Name prof) defaultWeb in
  let length := PartGeometry.Width_mm prof in
  let segments :=
    (if Qltb 0 (lip dims) then [lip dims] else [])
    ++ [flange dims; web dims; flange dims]
    ++ (if Qltb 0 (lip dims) then [lip dims] else []) in
  let flat := calculateFlatPattern segments 2 in
  let flatLength := flatLength flat in
  let (bendCalls, prevY) := forEachBend length (bendPositions flat) 0 0 in
  let calls :=
    [ AddPolyline [(0, 0); (length, 0); (length, flatLength); (0, flatLength)] "CUT_OUTER" 7 true ]
    ++ bendCalls
    ++ [ AddDimension length prevY length flatLength (Some (flatLength - prevY)) 20;
         AddDimension 0 0 length 0 (Some length) (- (20));
         AddDimension length 0 length flatLength (Some flatLength) 50;
         AddText (PartGeometry.Part_Name prof ++ " - FLAT PATTERN")%string 50 (flatLength / 2) 10
           "TEXT" 0 ] in
  GeneratedFile.mk
    (Unit_Ref ++ "_" ++ PartGeometry.Part_Name prof ++ "_Flat.dxf")%string
    (fst (toString (run calls new)))
    GeneratedFile.dxf
    ("Flat Pattern: " ++ PartGeometry.Part_Name prof)%string.

Definition typeName (t : PartGeometry.type) : string :=
  match t with PartGeometry.Panel => "Panel" | PartGeometry.Profile => "Profile" end.

Definition csvRow (part : PartGeometry.t) : string :=
  (PartGeometry.Part_Name part ++ "," ++ typeName (PartGeometry.Type_ part) ++ ","
   ++ Number_toString (PartGeometry.Width_mm part) ++ ","
   ++ Number_toString (PartGeometry.Height_mm part) ++ ","
   ++ Number_toString (PartGeometry.Qty part) ++ ","
   ++ PartGeometry.Material part ++ ","
   ++ match PartGeometry.Notes part with Some n => n | None => "" end)%string.

(** [panels.forEach]: the panels of the part list in order. The objects of
    [panels] are those of [Parts_List] (the input comes from [JSON.parse],
    so no two parts or holes are one object): the list returned is
    [Parts_List] as the loop leaves it. *)
Fixpoint forEachPanel (Unit_Ref : string) (parts : list PartGeometry.t)
    : list GeneratedFile.t * list PartGeometry.t :=
  match parts with
  | [] => ([], [])
  | part :: rest =>
      let (files, rest') := forEachPanel Unit_Ref rest in
      match PartGeometry.Type_ part with
      | PartGeometry.Panel =>
          let (file, part') := drawPanel Unit_Ref part in (file :: files, part' :: rest')
      | PartGeometry.Profile => (files, part :: rest')
      end
  end.

Definition isProfile (part : PartGeometry.t) : bool :=
  match PartGeometry.Type_ part with PartGeometry.Profile => true | _ => false end.

(** [generateFabricationFiles]: the files returned and the input object as
    the call leaves it. *)
Definition generateFabricationFiles (data : ExtractedData.t)
    : list GeneratedFile.t * ExtractedData.t :=
  let Unit_Ref := ExtractedData.Unit_Ref data in
  let csvRows :=
    "Part Name,Type,Width (mm),Height/Length (mm),Qty,Material,Notes"
      :: map csvRow (ExtractedData.Parts_List data) in
  let csvFile :=
    GeneratedFile.mk (Unit_Ref ++ "_Production_List.csv")%string (JS.join_nl csvRows)
      GeneratedFile.csv "Master Cut List for all identified parts" in
  let (panelFiles, parts) := forEachPanel Unit_Ref (ExtractedData.Parts_List data) in
  let profiles := filter isProfile parts in
  let profileFiles := map (drawProfile Unit_Ref) profiles in
  (csvFile :: panelFiles ++ profileFiles,
   ExtractedData.mk (ExtractedData.Project_ID data) (ExtractedData.Unit_Ref data)
     (ExtractedData.Global_Dims data) (ExtractedData.Base_Height data)
     (ExtractedData.Material_Specs data) (ExtractedData.Insulation data)
     (ExtractedData.Cuts data) parts).

End Generate.
End Geometry.

(** ** The preview of a drawing, [DxfPreview] in [App.tsx] *)

Module Preview.
Import JS Parser.
Local Open Scope list_scope.

(** [Math.max] of two numbers. *)
Definition js_max (a b : jsnum) : jsnum :=
  match a, b with
  | NaN, _ | _, NaN => NaN
  | _, _ => if js_ltb a b then b else a
  end.

(** A number used as a condition: [0] and [NaN] are falsy. *)
Definition truthy (v : jsnum) : bool :=
  match v with
  | NaN => false
  | Fin q => negb (Qeq_bool q 0)
  | _ => true
  end.

(** A string used as a condition: [undefined] and the empty string are
    falsy. *)
Definition truthy_string (s : option string) : bool :=
  match s with
  | Some (String _ _) => true
  | _ => false
  end.

Definition width (b : DxfBounds) : jsnum := js_sub (maxX b) (minX b).

Definition height (b : DxfBounds) : jsnum := js_sub (maxY b) (minY b).

(** [const p = Math.max(width, height) * 0.1]. *)
Definition padding (b : DxfBounds) : jsnum :=
  js_mul (js_max (width b) (height b)) (Fin (1 # 10)).

(** The four numbers of the [viewBox]: [minX - p], [-maxY - p],
    [width + p*2] and [height + p*2]. *)
Definition viewBoxNumbers (b : DxfBounds) : jsnum * jsnum * jsnum * jsnum :=
  let p := padding b in
  (js_sub (minX b) p, js_sub (js_neg (maxY b)) p,
   js_add (width b) (js_mul p (Fin 2)), js_add (height b) (js_mul p (Fin 2))).

(** [getColor]: the colour of an entity is the integer [parseInt] gave, or
    [NaN]. *)
Definition getColor (id : option Z) : string :=
  match id with
  | Some 1%Z => "#ef4444"
  | Some 2%Z => "#eab308"
  | Some 3%Z => "#22c55e"
  | Some 7%Z => "#1f2937"
  | _ => "#6b7280"
  end.

(** [getDash]. *)
Definition getDash (layer : option string) : option string :=
  match layer with
  | Some l => if String.eqb l "BEND" then Some "4 4" else None
  | None => None
  end.

(** The elements the preview puts in its [svg], with the attributes that
    come from the entity. The [points] of a polygon are the pairs its
    attribute lists. *)
Inductive element : Type :=
| line (x1 y1 x2 y2 : jsnum) (stroke : string) (strokeWidth : jsnum)
    (strokeDasharray : option string)
| polygon (points : list (jsnum * jsnum)) (stroke : string) (strokeWidth : jsnum)
    (strokeDasharray : option string)
| circle (cx cy r : jsnum) (stroke : string) (strokeWidth : jsnum)
| text (x y : jsnum) (fill : string) (fontSize : jsnum) (children : string).

(** The body of [entities.map((e, i) => ...)]: [None] is [null]. *)
Definition render (b : DxfBounds) (e : DxfEntity) : option element :=
  let strokeWidth := js_mul (width b) (Fin (5 # 1000)) in
  match e with
  | LINE layer color p0 p1 =>
      Some (line (fst p0) (js_neg (snd p0)) (fst p1) (js_neg (snd p1))
              (getColor color) strokeWidth (getDash layer))
  | POLYLINE layer color points _ =>
      Some (polygon (map (fun p => (fst p, js_neg (snd p))) points)
              (getColor color) strokeWidth (getDash layer))
  | CIRCLE layer color center radius =>
      if truthy radius
      then Some (circle (fst center) (js_neg (snd center)) radius (getColor color) strokeWidth)
      else None
  | TEXT layer color x y height t =>
      match t with
      | Some (String _ _ as s) => Some (text x (js_neg y) (getColor color) height s)
      | _ => None
      end
  end.

(** What [DxfPreview] shows of a parsed drawing: the numbers of the
    [viewBox] and the children of the [svg]. *)
Definition DxfPreview (r : pstate) : (jsnum * jsnum * jsnum * jsnum) * list (option element) :=
  (viewBoxNumbers (bounds r), map (render (bounds r)) (entities r)).

Section Attributes.
Context {host : Host}.

(** A number in a template literal. *)
Definition numberString (v : jsnum) : string :=
  match v with
  | NaN => "NaN"
  | PInf => "Infinity"
  | NInf => "-Infinity"
  | Fin q => Number_toString q
  end.

Fixpoint join_space (l : list string) : string :=
  match l with
  | [] => EmptyString
  | [x] => x
  | x :: r => (x ++ " " ++ join_space r)%string
  end.

(** The attribute [viewBox] of the [svg]. *)
Definition viewBox (b : DxfBounds) : string :=
  let '(vx, vy, vw, vh) := viewBoxNumbers b in
  join_space [numberString vx; numberString vy; numberString vw; numberString vh].

(** The attribute [points] of a polygon, from the pairs of the element. *)
Definition pts (points : list (jsnum * jsnum)) : string :=
  join_space (map (fun p => (numberString (fst p) ++ "," ++ numberString (snd p))%string) points).

End Attributes.

End Preview.

(** ** The progress icons, [StepIcon] in [App.tsx] *)

Module Steps.
Local Open Scope list_scope.

Inductive ProcessingStep : Type :=
| IDLE | READING | EXTRACTING | CALCULATING | COMPLETE | ERROR.

Definition eqb (a b : ProcessingStep) : bool :=
  match a, b with
  | IDLE, IDLE | READING, READING | EXTRACTING, EXTRACTING
  | CALCULATING, CALCULATING | COMPLETE, COMPLETE | ERROR, ERROR => true
  | _, _ => false
  end.

Definition steps : list ProcessingStep := [IDLE; READING; EXTRACTING; CALCULATING; COMPLETE].

(** [Array.prototype.indexOf]: [-1] when the value is absent. *)
Fixpoint indexOf (l : list ProcessingStep) (s : ProcessingStep) : Z :=
  match l with
  | [] => (-1)%Z
  | x :: r =>
      if eqb x s then 0%Z
      else match indexOf r s with
           | Zneg _ => (-1)%Z
           | i => (i + 1)%Z
           end
  end.

Definition isCompleted (current target : ProcessingStep) : bool :=
  (Z.ltb (indexOf steps target) (indexOf steps current) || eqb current COMPLETE)%bool.

Definition isActive (current target : ProcessingStep) : bool := eqb current target.

(** The look of the circle and the icon inside it. *)
Inductive look : Type := Active | Completed | Pending.

Inductive icon : Type := CheckCircle | Icon.

Definition StepIcon (current target : ProcessingStep) : look * icon :=
  (if isActive current target then Active
   else if isCompleted current target then Completed else Pending,
   if isCompleted current target then CheckCircle else Icon).

End Steps.

(** ** The reply of the model, in [processPdfWithGemini] *)

Module Gemini.
Import JS.

(** [String.prototype.replace] with a global pattern of literal
    characters, which is not empty: the matches are found from left to
    right and do not overlap. [skip] counts the characters of a match that
    are still to be passed over. *)
Fixpoint replace_from (skip : nat) (pattern replacement s : string) : string :=
  match s with
  | EmptyString => EmptyString
  | String c r =>
      match skip with
      | S k => replace_from k pattern replacement r
      | O =>
          if String.prefix pattern s
          then (replacement ++ replace_from (String.length pattern - 1) pattern replacement r)%string
          else String c (replace_from 0 pattern replacement r)
      end
  end.

Definition replace (pattern replacement s : string) : string :=
  replace_from 0 pattern replacement s.

(** [text.replace(/```json/g, '').replace(/```/g, '').trim()]. *)
Definition cleanJson (text : string) : string :=
  trim (replace "```" "" (replace "```json" "" text)).

End Gemini.

(** * Vocabulary of the statements *)

Module FlatPatternSpec.
Import Geometry.
Local Open Scope list_scope.
Local Open Scope Q_scope.



End FlatPatternSpec.

Module TraySpec.
Import SimpleDxfWriter Geometry.
Local Open Scope list_scope.
Local Open Scope Q_scope.


(** The places of the holes along a flange of flat length [flat]: the
    values of [notchSize + i * spacing] in the loops of [rivetsX] and
    [rivetsY]. *)
Definition positions (flat : Q) : list Q :=
  forUpTo (numHoles flat) (fun i => [notchSize + inject_Z i * spacing flat]).



(** The tray panel of the end-to-end example: 300 by 200, no notes. *)
Definition Base_Tray : PartGeometry.t :=
  PartGeometry.mk "Base_Tray" PartGeometry.Panel "GI" 1 300 200 None (Some []).

(** The flat panel of the end-to-end example: 200 by 100, marked flat. *)
Definition Plate_A : PartGeometry.t :=
  PartGeometry.mk "Plate_A" PartGeometry.Panel "GI" 1 200 100 (Some "flat") None.

End TraySpec.

Module FrameSpec.
Import Geometry.
Local Open Scope list_scope.
Local Open Scope Q_scope.

(** [h'] is [h] moved by the notch size on both axes, all else equal. *)
Definition hole_moved (h h' : Hole.t) : Prop :=
  Hole.Shape h' = Hole.Shape h
  /\ Hole.X h' = Hole.X h + (FLANGE - BEND_DEDUCTION / 2)
  /\ Hole.Y h' = Hole.Y h + (FLANGE - BEND_DEDUCTION / 2)
  /\ Hole.W_or_Dia h' = Hole.W_or_Dia h
  /\ Hole.H h' = Hole.H h.

Definition holes_moved (holes holes' : option (list Hole.t)) : Prop :=
  match holes, holes' with
  | Some l, Some l' => Forall2 hole_moved l l'
  | None, None => True
  | _, _ => False
  end.

Definition is_tray_panel (part : PartGeometry.t) : bool :=
  match PartGeometry.Type_ part with
  | PartGeometry.Panel => isTray part
  | PartGeometry.Profile => false
  end.

(** [part'] is [part] after the call: only the holes of a tray panel have
    moved. *)
Definition part_after (part part' : PartGeometry.t) : Prop :=
  PartGeometry.Part_Name part' = PartGeometry.Part_Name part
  /\ PartGeometry.Type_ part' = PartGeometry.Type_ part
  /\ PartGeometry.Material part' = PartGeometry.Material part
  /\ PartGeometry.Qty part' = PartGeometry.Qty part
  /\ PartGeometry.Width_mm part' = PartGeometry.Width_mm part
  /\ PartGeometry.Height_mm part' = PartGeometry.Height_mm part
  /\ PartGeometry.Notes part' = PartGeometry.Notes part
  /\ if is_tray_panel part
     then holes_moved (PartGeometry.Holes part) (PartGeometry.Holes part')
     else PartGeometry.Holes part' = PartGeometry.Holes part.

End FrameSpec.

Module ParserSpec.
Import JS Parser.
Local Open Scope list_scope.

(** The coordinates an entity of the result has passed to [updateBounds]. *)
Definition contributes (e : DxfEntity) : list (jsnum * jsnum) :=
  match e with
  | LINE _ _ p0 p1 => [p0; p1]
  | CIRCLE _ _ center radius =>
      [ (js_sub (fst center) radius, js_sub (snd center) radius);
        (js_add (fst center) radius, js_add (snd center) radius) ]
  | TEXT _ _ x y height (Some t) =>
      [ (x, y);
        (js_add x (js_mul (js_mul (Fin (inject_Z (Z.of_nat (String.length t)))) height)
                     (Fin (6 # 10))),
         js_add y height) ]
  | TEXT _ _ x y _ None => [(x, y)]
  | POLYLINE _ _ points _ => points
  end.

(** The text of a TEXT entity is a string. *)
Definition has_text (e : DxfEntity) : Prop :=
  match e with
  | TEXT _ _ _ _ _ None => False
  | _ => True
  end.

(** [updateBounds] on each point of a list in turn. *)
Definition grow (b : DxfBounds) (ps : list (jsnum * jsnum)) : DxfBounds :=
  fold_left (fun b p => updateBounds (fst p) (snd p) b) ps b.

(** The bounds of a state are those its entities account for. *)
Definition accounted (st : pstate) : Prop :=
  bounds st = grow (bounds initial) (flat_map contributes (entities st)).



End ParserSpec.

(** Documents as sequences of records. *)
Module DocSpec.
Import JS Parser ParserSpec.
Local Open Scope list_scope.

(** A field of a record: the line of its group code and the line of its
    value. *)
Definition field : Type := (string * string)%type.

Definition flatten (fs : list field) : list string := flat_map (fun f => [fst f; snd f]) fs.


(** A record of the entities section: the pair [0 type] and the fields
    that follow it; a polyline also has its [VERTEX] records and the
    closing [SEQEND]. *)
Inductive record : Type :=
| Rec (type : string) (fields : list field)
| Poly (fields : list field) (vertices : list (list field)).

Definition vertexTokens (v : list field) : list string := "0" :: "VERTEX" :: flatten v.

Definition typeOf (r : record) : string :=
  match r with
  | Rec type _ => type
  | Poly _ _ => "POLYLINE"
  end.

(** The lines of a record after its first pair. *)
Definition body (r : record) : list string :=
  match r with
  | Rec _ fields => flatten fields
  | Poly fields vertices =>
      flatten fields ++ flat_map vertexTokens vertices ++ ["0"; "SEQEND"]
  end.

Definition tokens (r : record) : list string := "0" :: typeOf r :: body r.






Definition kind (e : DxfEntity) : string :=
  match e with
  | LINE _ _ _ _ => "LINE"
  | CIRCLE _ _ _ _ => "CIRCLE"
  | TEXT _ _ _ _ _ _ => "TEXT"
  | POLYLINE _ _ _ _ => "POLYLINE"
  end.

(** Lines at which a record may end: the end of the array, or a line whose
    code is 0. *)
Definition boundary (lines : list string) : bool :=
  match lines with
  | [] => true
  | c :: _ => code_is 0 (parseInt c)
  end.


End DocSpec.

(** Writing and reading back. *)
Module RoundTripSpec.
Import JS SimpleDxfWriter Parser DocSpec.
Local Open Scope list_scope.
Local Open Scope Q_scope.

Fixpoint all_chars (p : ascii -> bool) (s : string) : bool :=
  match s with
  | EmptyString => true
  | String c r => (p c && all_chars p r)%bool
  end.







Section WithHost.
Context {host : Host}.





End WithHost.

End RoundTripSpec.

(** Profiles, holes and files. *)
Module PartsSpec.
Import SimpleDxfWriter Geometry.
Local Open Scope list_scope.
Local Open Scope Q_scope.

(** The segment list [drawProfile] builds from the dimensions of a
    profile: the lips only when they are positive. *)
Definition profileSegments (dims : ProfileDims) : list Q :=
  (if Qltb 0 (lip dims) then [lip dims] else [])
  ++ [flange dims; web dims; flange dims]
  ++ (if Qltb 0 (lip dims) then [lip dims] else []).

(** [parseProfileDims(prof.Part_Name, prof.Height_mm || 100)]. *)
Definition profileDims (prof : PartGeometry.t) : ProfileDims :=
  parseProfileDims (PartGeometry.Part_Name prof)
    (if Qeq_bool (PartGeometry.Height_mm prof) 0 then 100 else PartGeometry.Height_mm prof).

Definition profileFlat (prof : PartGeometry.t) : FlatPattern :=
  calculateFlatPattern (profileSegments (profileDims prof)) 2.

(** The calls [drawProfile] makes on its writer. *)
Definition profileCalls (prof : PartGeometry.t) : list call :=
  let length := PartGeometry.Width_mm prof in
  let flatLength := flatLength (profileFlat prof) in
  let bends := forEachBend length (bendPositions (profileFlat prof)) 0 0 in
  [ AddPolyline [(0, 0); (length, 0); (length, flatLength); (0, flatLength)] "CUT_OUTER" 7 true ]
  ++ fst bends
  ++ [ AddDimension length (snd bends) length flatLength (Some (flatLength - snd bends)) 20;
       AddDimension 0 0 length 0 (Some length) (- (20));
       AddDimension length 0 length flatLength (Some flatLength) 50;
       AddText (PartGeometry.Part_Name prof ++ " - FLAT PATTERN")%string 50 (flatLength / 2) 10
         "TEXT" 0 ].


(** A string at which a run of digits ends: the empty string, or one that
    starts with something other than a digit. *)
Definition stops (s : string) : bool :=
  match s with
  | EmptyString => true
  | String c _ => negb (JS.is_digit c)
  end.

(** A string that does not go on with a third dimension: the empty string,
    or one that starts with neither a digit nor [x]. *)
Definition ends_dims (s : string) : bool :=
  match s with
  | EmptyString => true
  | String c _ => (negb (JS.is_digit c) && negb (is_x c))%bool
  end.

Definition not_digit (c : ascii) : bool := negb (JS.is_digit c).

Definition not_x (c : ascii) : bool := negb (is_x c).

Definition is_bend_line (k : call) : bool :=
  match k with
  | AddLine _ _ _ _ layer _ => String.eqb layer "BEND"
  | _ => false
  end.

(** A cut of the inner layer: a circle or a polyline. *)
Definition is_cut (k : call) : bool :=
  match k with
  | AddCircle _ _ _ layer _ => String.eqb layer "CUT_INNER"
  | AddPolyline _ layer _ _ => String.eqb layer "CUT_INNER"
  | _ => false
  end.

Definition is_callout (k : call) : bool :=
  match k with
  | AddCallout _ _ _ _ _ => true
  | _ => false
  end.

Definition is_circular (hole : Hole.t) : bool :=
  match Hole.Shape hole with Hole.Circle => true | Hole.Rect => false end.

Definition isPanel (part : PartGeometry.t) : bool :=
  match PartGeometry.Type_ part with PartGeometry.Panel => true | _ => false end.

(** A hole that names no height: the field is absent or zero. *)
Definition no_height (hole : Hole.t) : bool :=
  match Hole.H hole with
  | Some h => Qeq_bool h 0
  | None => true
  end.

Definition holesOf (part : PartGeometry.t) : list Hole.t :=
  match PartGeometry.Holes part with Some holes => holes | None => [] end.

(** [h'] is [h] moved by twice the notch size. *)
Definition hole_moved_twice (h h' : Hole.t) : Prop :=
  Hole.Shape h' = Hole.Shape h
  /\ Hole.X h' == Hole.X h + 2 * notchSize
  /\ Hole.Y h' == Hole.Y h + 2 * notchSize
  /\ Hole.W_or_Dia h' = Hole.W_or_Dia h
  /\ Hole.H h' = Hole.H h.

Definition holes_moved_twice (holes holes' : option (list Hole.t)) : Prop :=
  match holes, holes' with
  | Some l, Some l' => Forall2 hole_moved_twice l l'
  | None, None => True
  | _, _ => False
  end.

(** [part'] is [part] after two calls on the same object. *)
Definition part_after_twice (part part' : PartGeometry.t) : Prop :=
  PartGeometry.Part_Name part' = PartGeometry.Part_Name part
  /\ PartGeometry.Type_ part' = PartGeometry.Type_ part
  /\ PartGeometry.Notes part' = PartGeometry.Notes part
  /\ if FrameSpec.is_tray_panel part
     then holes_moved_twice (PartGeometry.Holes part) (PartGeometry.Holes part')
     else PartGeometry.Holes part' = PartGeometry.Holes part.

(** A part as one call leaves it. *)
Definition partAfter (part : PartGeometry.t) : PartGeometry.t :=
  if FrameSpec.is_tray_panel part then
    PartGeometry.mk (PartGeometry.Part_Name part) (PartGeometry.Type_ part)
      (PartGeometry.Material part) (PartGeometry.Qty part) (PartGeometry.Width_mm part)
      (PartGeometry.Height_mm part) (PartGeometry.Notes part)
      (match PartGeometry.Holes part with
       | Some holes => Some (map remapHole holes)
       | None => None
       end)
  else part.

(** The name of the drawing of a part. *)
Definition drawingName (Unit_Ref : string) (part : PartGeometry.t) : string :=
  match PartGeometry.Type_ part with
  | PartGeometry.Panel => Unit_Ref ++ "_" ++ PartGeometry.Part_Name part ++ ".dxf"
  | PartGeometry.Profile => Unit_Ref ++ "_" ++ PartGeometry.Part_Name part ++ "_Flat.dxf"
  end%string.

Section WithHost.
Context {host : Host}.

(** The calls [drawPanel] makes on its writer. *)
Definition panelCalls (Unit_Ref : string) (panel : PartGeometry.t) : list call :=
  let W := PartGeometry.Width_mm panel in
  let H := PartGeometry.Height_mm panel in
  let holes :=
    match PartGeometry.Holes panel with
    | Some holes => if isTray panel then map remapHole holes else holes
    | None => []
    end in
  (if isTray panel then trayCalls W H else flatCalls W H)
  ++ forEachHole holes 0
  ++ [ AddText (Unit_Ref ++ " - " ++ PartGeometry.Part_Name panel ++ " ("
                  ++ PartGeometry.Material panel ++ ")")%string
         20 ((if isTray panel then flatSize H else H) / 2) 20 "TEXT" 0 ].

End WithHost.

End PartsSpec.

(** Drawings as the writer lays them out. *)
Module DrawingSpec.
Import JS SimpleDxfWriter.
Local Open Scope list_scope.
Local Open Scope Q_scope.

Section WithHost.
Context {host : Host}.

(** The calls of [addLine] and [addText] that [addDimension] and
    [addCallout] make on their own writer, in order; the other four
    methods write their record themselves. *)
Definition expand (k : call) : list call :=
  match k with
  | AddDimension x1 y1 x2 y2 value offset =>
      let dist := dimDist x1 y1 x2 y2 in
      if Qltb dist (1 # 10) then []
      else
        let val := match value with Some v => v | None => dist end in
        let angle := Math_atan2 (y2 - y1) (x2 - x1) in
        let perpAngle := angle + Math_PI / 2 in
        let gap := 2 in
        let overshoot := 2 in
        let extStartX1 := x1 + Math_cos perpAngle * (Math_sign offset * gap) in
        let extStartY1 := y1 + Math_sin perpAngle * (Math_sign offset * gap) in
        let extStartX2 := x2 + Math_cos perpAngle * (Math_sign offset * gap) in
        let extStartY2 := y2 + Math_sin perpAngle * (Math_sign offset * gap) in
        let offX := Math_cos perpAngle * offset in
        let offY := Math_sin perpAngle * offset in
        let dimX1 := x1 + offX in
        let dimY1 := y1 + offY in
        let dimX2 := x2 + offX in
        let dimY2 := y2 + offY in
        let extEndX1 := dimX1 + Math_cos perpAngle * (Math_sign offset * overshoot) in
        let extEndY1 := dimY1 + Math_sin perpAngle * (Math_sign offset * overshoot) in
        let extEndX2 := dimX2 + Math_cos perpAngle * (Math_sign offset * overshoot) in
        let extEndY2 := dimY2 + Math_sin perpAngle * (Math_sign offset * overshoot) in
        let tickSize := 2 in
        let tickAngle := angle + Math_PI / 4 in
        let tick1X := Math_cos tickAngle * tickSize in
        let tick1Y := Math_sin tickAngle * tickSize in
        let midX := (dimX1 + dimX2) / 2 in
        let midY := (dimY1 + dimY2) / 2 in
        let textGap := 2 in
        let textX := midX + Math_cos perpAngle * textGap in
        let textY := midY + Math_sin perpAngle * textGap in
        let textStr := toFixed val 1 in
        let textHeight := 35 # 10 in
        let textWidthEstimate :=
          inject_Z (Z.of_nat (String.length textStr)) * (textHeight * (6 # 10)) in
        [ AddLine extStartX1 extStartY1 extEndX1 extEndY1 "DIMENSIONS" 3;
          AddLine extStartX2 extStartY2 extEndX2 extEndY2 "DIMENSIONS" 3;
          AddLine dimX1 dimY1 dimX2 dimY2 "DIMENSIONS" 3;
          AddLine (dimX1 - tick1X) (dimY1 - tick1Y) (dimX1 + tick1X) (dimY1 + tick1Y)
            "DIMENSIONS" 3;
          AddLine (dimX2 - tick1X) (dimY2 - tick1Y) (dimX2 + tick1X) (dimY2 + tick1Y)
            "DIMENSIONS" 3;
          AddText textStr (textX - textWidthEstimate / 2) (textY - textHeight / 2) textHeight
            "TEXT" (dimTextRot angle) ]
  | AddCallout x y text angleDeg length =>
      let angleRad := angleDeg * Math_PI / 180 in
      let endX := x + Math_cos angleRad * length in
      let endY := y + Math_sin angleRad * length in
      let direction := Math_sign (Math_cos angleRad) in
      let textHeight := 35 # 10 in
      [ AddLine x y endX endY "DIMENSIONS" 3;
        AddLine endX endY (endX + 10 * direction) endY "DIMENSIONS" 3;
        AddText text
          (if Qltb 0 direction then endX + 2
           else endX - 2 - inject_Z (Z.of_nat (String.length text)) * textHeight * (6 # 10))
          (endY + 2) textHeight "TEXT" 0 ]
  | _ => [k]
  end.

End WithHost.

End DrawingSpec.

(** Bounds and sections of a parsed document. *)
Module BoundsSpec.
Import JS Parser.
Local Open Scope list_scope.
Local Open Scope Q_scope.

(** A point with two finite coordinates. *)
Definition finite (p : jsnum * jsnum) : bool :=
  match p with
  | (Fin _, Fin _) => true
  | _ => false
  end.

(** The bounds are the smallest box around the points: finite, every
    point is inside, and each side passes through a point. *)
Definition encloses (b : DxfBounds) (ps : list (jsnum * jsnum)) : Prop :=
  exists x0 y0 x1 y1,
    b = mkBounds (Fin x0) (Fin y0) (Fin x1) (Fin y1)
    /\ (forall x y, In (Fin x, Fin y) ps -> (x0 <= x /\ x <= x1) /\ (y0 <= y /\ y <= y1))
    /\ In (Fin x0) (map fst ps) /\ In (Fin y0) (map snd ps)
    /\ In (Fin x1) (map fst ps) /\ In (Fin y1) (map snd ps).



(** A document with a line and a circle. *)
Definition line_and_circle : string :=
  join_nl [ "0"; "SECTION"; "2"; "ENTITIES";
            "0"; "LINE"; "10"; "5"; "20"; "-3"; "11"; "40"; "21"; "12";
            "0"; "CIRCLE"; "10"; "0"; "20"; "0"; "40"; "8";
            "0"; "ENDSEC"; "0"; "EOF" ].


End BoundsSpec.

(** The preview, the progress icons and the reply. *)
Module PreviewSpec.
Import JS Parser Preview.
Local Open Scope list_scope.
Local Open Scope Q_scope.

(** A place of the picture lies within the rectangle of the [viewBox]. *)
Definition in_view (vb : jsnum * jsnum * jsnum * jsnum) (p : jsnum * jsnum) : Prop :=
  match vb, p with
  | (Fin vx, Fin vy, Fin vw, Fin vh), (Fin x, Fin y) =>
      (vx <= x /\ x <= vx + vw) /\ (vy <= y /\ y <= vy + vh)
  | _, _ => False
  end.

(** The places an element of the picture reaches: the ends of a line, the
    corners of a polygon, the corners of the square around a circle. *)
Definition reach (el : option element) : list (jsnum * jsnum) :=
  match el with
  | Some (line x1 y1 x2 y2 _ _ _) => [(x1, y1); (x2, y2)]
  | Some (polygon points _ _ _) => points
  | Some (circle cx cy r _ _) => [(js_sub cx r, js_sub cy r); (js_add cx r, js_add cy r)]
  | _ => []
  end.

(** An entity the preview leaves out: a circle whose radius is 0 or not a
    number, a text without characters. *)
Definition left_out (e : DxfEntity) : bool :=
  match e with
  | CIRCLE _ _ _ NaN => true
  | CIRCLE _ _ _ (Fin r) => Qeq_bool r 0
  | TEXT _ _ _ _ _ None => true
  | TEXT _ _ _ _ _ (Some EmptyString) => true
  | _ => false
  end.


End PreviewSpec.

(** * Properties *)

(** ** The model at work *)

Module Examples.
Import JS SimpleDxfWriter Parser Geometry DocSpec TraySpec.
Local Open Scope list_scope.
Local Open Scope Q_scope.

Example parseInt_ex :
  map parseInt ["0"; " 62"; "-0"; "0x1F"; "12abc"; "abc"; "0x"; ""]
  = [Some 0%Z; Some 62%Z; Some 0%Z; Some 31%Z; Some 12%Z; None; None; None].
Proof. reflexivity. Qed.

Example parseFloat_ex :
  map parseFloat ["100.500"; "-0.000"; ".5"; "1e3"; "1.5e-2x"; "abc"; "."; "-Infinity"; "3.5"]
  = [Fin (100500 # 1000); Fin (0 # 1000); Fin (5 # 10); Fin 1000;
     Fin (15 # 1000); NaN; NaN; NInf; Fin (35 # 10)].
Proof. reflexivity. Qed.

Example split_ex : split_nl (join_nl ["0"; "SECTION"; ""; "2"]) = ["0"; "SECTION"; ""; "2"].
Proof. reflexivity. Qed.

Example decimal_ex : map decimal [0; 7; 10; 1234567890]%Z = ["0"; "7"; "10"; "1234567890"].
Proof. reflexivity. Qed.

Example toFixed_ex :
  ( toFixed (host := Ref.host) (1005 # 10) 3, toFixed (host := Ref.host) (- 1 # 3) 3,
    toFixed (host := Ref.host) (5 # 10000) 3, toFixed (host := Ref.host) (- 5 # 10000) 3,
    toFixed (host := Ref.host) 0 3, toFixed (host := Ref.host) (1234 # 100) 0,
    toFixed (host := Ref.host) 300 1 )
  = ("100.500", "-0.333", "0.001", "-0.001", "0.000", "12", "300.0").
Proof. reflexivity. Qed.

(** The line from (0, 0) to (100.5, 0) of the round-trip example. *)
Example line_ex :
  parseDxf (fst (toString (addLine (host := Ref.host) 0 0 (1005 # 10) 0 "0" 7 new)))
  = Ok (mkState
          [LINE (Some "0") (Some 7%Z) (Fin (0 # 1000), Fin (0 # 1000))
             (Fin (100500 # 1000), Fin (0 # 1000))]
          (mkBounds (Fin (0 # 1000)) (Fin (0 # 1000)) (Fin (100500 # 1000)) (Fin (0 # 1000)))).
Proof. vm_compute. reflexivity. Qed.

(** A value that is not a number in a numeric field is read as [NaN]; as
    no x coordinate is a number, [minX] stays infinite and the bounds fall
    back. *)
Example nan_ex :
  parseDxf (join_nl ["0"; "SECTION"; "2"; "ENTITIES"; "0"; "CIRCLE"; "10"; "abc"; "20"; "5";
                     "40"; "2"; "0"; "ENDSEC"; "0"; "EOF"])
  = Ok (mkState [CIRCLE (Some "0") (Some 7%Z) (NaN, Fin 5) (Fin 2)]
          fallback).
Proof. vm_compute. reflexivity. Qed.

(** The drawing of the flat panel read back: the outer rectangle, two
    dimensions of five lines and a text each, and the label. *)
Example plate_ex :
  match parseDxf (GeneratedFile.content (fst (drawPanel (host := Ref.host) "U1" Plate_A))) with
  | Ok r => map kind (entities r)
  | _ => []
  end
  = [ "POLYLINE";
      "LINE"; "LINE"; "LINE"; "LINE"; "LINE"; "TEXT";
      "LINE"; "LINE"; "LINE"; "LINE"; "LINE"; "TEXT";
      "TEXT" ].
Proof. vm_compute. reflexivity. Qed.

(** The drawing of the tray read back: the notched outline, four bend
    lines with their texts, one rivet hole on each of the four flanges,
    three dimensions and the label. *)
Example tray_ex :
  match parseDxf (GeneratedFile.content (fst (drawPanel (host := Ref.host) "U1" Base_Tray))) with
  | Ok r => map kind (entities r)
  | _ => []
  end
  = [ "POLYLINE";
      "LINE"; "TEXT"; "LINE"; "TEXT"; "LINE"; "TEXT"; "LINE"; "TEXT";
      "CIRCLE"; "CIRCLE"; "CIRCLE"; "CIRCLE";
      "LINE"; "LINE"; "LINE"; "LINE"; "LINE"; "TEXT";
      "LINE"; "LINE"; "LINE"; "LINE"; "LINE"; "TEXT";
      "LINE"; "LINE"; "LINE"; "LINE"; "LINE"; "TEXT";
      "TEXT" ].
Proof. vm_compute. reflexivity. Qed.

End Examples.


(** ** [calculateFlatPattern] *)

Module FlatPatternFacts.
Import Geometry FlatPatternSpec.
Local Open Scope list_scope.
Local Open Scope Q_scope.




Lemma ofNat_succ (i : nat) : ofNat (S i) == ofNat i + 1.
Proof.
  unfold ofNat. rewrite Nat2Z.inj_succ, <- Z.add_1_r, inject_Z_plus. reflexivity.
Qed.

Lemma bend_nth (segments : list Q) (t : Q) (i : nat) :
  (i < List.length segments - 1)%nat ->
  nth_error (bendPositions (calculateFlatPattern segments t)) i
  = Some (cumOuter segments i - (ofNat i * (2 * t) + 2 * t / 2)).
Proof.
  intros Hi. unfold calculateFlatPattern. simpl.
  rewrite nth_error_map, nth_error_seq.
  destruct (Nat.ltb_spec i (List.length segments - 1)) as [_|Hge]; [reflexivity | lia].
Qed.

Lemma bend_length (segments : list Q) (t : Q) :
  List.length (bendPositions (calculateFlatPattern segments t)) = (List.length segments - 1)%nat.
Proof. unfold calculateFlatPattern. simpl. now rewrite length_map, length_seq. Qed.







End FlatPatternFacts.

(** ** The tray layout *)

Module TrayFacts.
Import SimpleDxfWriter Geometry TraySpec.
Local Open Scope list_scope.
Local Open Scope Q_scope.






Lemma flat_map_single {A B : Type} (f : A -> B) (g : B -> list call) (l : list A) :
  flat_map g (flat_map (fun i => [f i]) l) = flat_map (fun i => g (f i)) l.
Proof.
  induction l as [|a l IH]; simpl; [reflexivity|]. now rewrite IH.
Qed.

Lemma rivetsX_positions (flatW flatH : Q) :
  rivetsX flatW flatH
  = flat_map (fun x => [ AddCircle x flangeMid (rivetDia / 2) "CUT_INNER" 1;
                          AddCircle x (flatH - flangeMid) (rivetDia / 2) "CUT_INNER" 1 ])
      (positions flatW).
Proof. unfold rivetsX, positions, forUpTo. now rewrite flat_map_single. Qed.

Lemma rivetsY_positions (flatW flatH : Q) :
  rivetsY flatW flatH
  = flat_map (fun y => [ AddCircle flangeMid y (rivetDia / 2) "CUT_INNER" 1;
                          AddCircle (flatW - flangeMid) y (rivetDia / 2) "CUT_INNER" 1 ])
      (positions flatH).
Proof. unfold rivetsY, positions, forUpTo. now rewrite flat_map_single. Qed.











Section Tray.
Context {host : Host}.


End Tray.



End TrayFacts.

(** ** The writer *)

Module WriterFacts.
Import SimpleDxfWriter.
Local Open Scope list_scope.
Local Open Scope Q_scope.

Lemma Qltb_lt (a b : Q) : Qltb a b = true <-> a < b.
Proof.
  unfold Qltb. rewrite negb_true_iff. split.
  - intros H. apply Qnot_le_lt. intros Hle. apply Qle_bool_iff in Hle. congruence.
  - intros H. destruct (Qle_bool b a) eqn:E; [|reflexivity].
    apply Qle_bool_iff in E. exfalso. exact (Qlt_not_le _ _ H E).
Qed.

Lemma Qltb_ge (a b : Q) : Qltb a b = false <-> b <= a.
Proof.
  unfold Qltb. rewrite negb_false_iff. apply Qle_bool_iff.
Qed.

Lemma join_nl_cons (x : string) (l : list string) :
  l <> [] -> JS.join_nl (x :: l) = (x ++ String JS.nl (JS.join_nl l))%string.
Proof. destruct l; [congruence | reflexivity]. Qed.

Lemma string_app_assoc (a b c : string) : ((a ++ b) ++ c = a ++ (b ++ c))%string.
Proof. induction a as [|ch a IH]; simpl; [reflexivity | now rewrite IH]. Qed.

Lemma join_nl_app (l l' : list string) :
  l <> [] -> l' <> [] ->
  JS.join_nl (l ++ l') = (JS.join_nl l ++ String JS.nl (JS.join_nl l'))%string.
Proof.
  intros Hl Hl'. induction l as [|x l IH]; [congruence|].
  destruct l as [|y l].
  - simpl app. now rewrite join_nl_cons.
  - change ((x :: y :: l) ++ l') with (x :: ((y :: l) ++ l')).
    rewrite join_nl_cons by discriminate. rewrite IH by discriminate.
    rewrite (join_nl_cons x (y :: l)) by discriminate.
    now rewrite string_app_assoc.
Qed.

Lemma string_length_app (a b : string) :
  String.length (a ++ b) = (String.length a + String.length b)%nat.
Proof. induction a as [|ch a IH]; simpl; [reflexivity | now rewrite IH]. Qed.

Section Render.
Context {host : Host}.

(** C4 (as the code has it): [toString] pushes the four trailer lines on
    the content before it joins it, so on every writer a second call
    returns the text of the first followed by one more trailer, and the two
    texts differ. *)
Theorem toString_twice (c : content) :
  let first := toString c in
  let second := toString (snd first) in
  snd first = c ++ trailer
  /\ fst second = (fst first ++ String JS.nl (JS.join_nl trailer))%string
  /\ fst second <> fst first.
Proof.
  cbv zeta. unfold toString. cbn [fst snd].
  assert (Hne : c ++ trailer <> []).
  { destruct c; discriminate. }
  assert (E : JS.join_nl ((c ++ trailer) ++ trailer)
              = (JS.join_nl (c ++ trailer) ++ String JS.nl (JS.join_nl trailer))%string).
  { apply join_nl_app; [exact Hne | discriminate]. }
  split; [reflexivity|]. split; [exact E|].
  rewrite E. intros Heq. apply (f_equal String.length) in Heq.
  rewrite string_length_app in Heq. simpl in Heq. lia.
Qed.


(** The six entities of a dimension that is not suppressed: two extension
    lines, the dimension line, two ticks and the text. *)
Lemma addDimension_drawn (x1 y1 x2 y2 : Q) (value : option Q) (offset : Q) (c : content) :
  ~ dimDist x1 y1 x2 y2 < 1 # 10 ->
  exists l1 l2 l3 l4 l5 text tx ty,
    addDimension x1 y1 x2 y2 value offset c
    = c ++ ("0" :: "LINE" :: l1) ++ ("0" :: "LINE" :: l2) ++ ("0" :: "LINE" :: l3)
        ++ ("0" :: "LINE" :: l4) ++ ("0" :: "LINE" :: l5)
        ++ [ "0"; "TEXT"; "8"; "TEXT"; "10"; tx; "20"; ty; "30"; "0.0";
             "40"; Number_toString (35 # 10);
             "50"; Number_toString (dimTextRot (Math_atan2 (y2 - y1) (x2 - x1)));
             "1"; text ].
Proof.
  intros Hd. unfold addDimension. cbv zeta.
  destruct (Qltb (dimDist x1 y1 x2 y2) (1 # 10)) eqn:E.
  - apply Qltb_lt in E. contradiction.
  - unfold addText, addLine. rewrite <- !app_assoc.
    do 8 eexists. reflexivity.
Qed.

(** The rotation is the angle in degrees when that lies in [[-90, 90]], and
    180 more otherwise. *)
Lemma dimTextRot_cases (angle : Q) :
  let deg := angle * 180 / Math_PI in
  (- (90) <= deg <= 90 -> dimTextRot angle = deg)
  /\ (deg < - (90) \/ 90 < deg -> dimTextRot angle = deg + 180).
Proof.
  cbv zeta. unfold dimTextRot. cbv zeta.
  destruct (Qltb 90 (angle * 180 / Math_PI)) eqn:E1;
    destruct (Qltb (angle * 180 / Math_PI) (- (90))) eqn:E2; simpl;
    try apply Qltb_lt in E1; try apply Qltb_lt in E2;
    try apply Qltb_ge in E1; try apply Qltb_ge in E2;
    split; intros H; try reflexivity; try lra.
Qed.

Lemma Math_PI_pos : 0 < Math_PI.
Proof. reflexivity. Qed.

Lemma degrees_range (angle : Q) :
  - Math_PI <= angle <= Math_PI ->
  - (180) <= angle * 180 / Math_PI <= 180.
Proof.
  intros [Hlo Hhi]. pose proof Math_PI_pos as Hpi.
  split.
  - apply Qle_shift_div_l; [exact Hpi|]. lra.
  - apply Qle_shift_div_r; [exact Hpi|]. lra.
Qed.

(** C5 (as the code has it): a dimension that is not suppressed ends with a
    TEXT entity whose rotation is [dimTextRot] of the angle of the measured
    line: the angle in degrees when it lies in [[-90, 90]], 180 more
    otherwise, which for an angle in [[-pi, pi]] lies in [[-90, 90]] or in
    [(270, 360]]. *)
Theorem addDimension_rotation (x1 y1 x2 y2 : Q) (value : option Q) (offset : Q) (c : content) :
  ~ dimDist x1 y1 x2 y2 < 1 # 10 ->
  - Math_PI <= Math_atan2 (y2 - y1) (x2 - x1) <= Math_PI ->
  let angle := Math_atan2 (y2 - y1) (x2 - x1) in
  let deg := angle * 180 / Math_PI in
  let rot := dimTextRot angle in
  (exists before text tx ty,
      addDimension x1 y1 x2 y2 value offset c
      = before ++ [ "0"; "TEXT"; "8"; "TEXT"; "10"; tx; "20"; ty; "30"; "0.0";
                    "40"; Number_toString (35 # 10); "50"; Number_toString rot; "1"; text ])
  /\ (- (90) <= deg <= 90 -> rot = deg)
  /\ (deg < - (90) \/ 90 < deg -> rot = deg + 180)
  /\ (- (90) <= rot <= 90 \/ 270 < rot <= 360).
Proof.
  intros Hd Hrange angle deg rot.
  destruct (addDimension_drawn x1 y1 x2 y2 value offset c Hd)
    as (l1 & l2 & l3 & l4 & l5 & text & tx & ty & E).
  destruct (dimTextRot_cases angle) as [Hin Hout].
  pose proof (degrees_range angle Hrange) as Hdeg.
  split; [|split; [exact Hin | split; [exact Hout|]]].
  - exists (c ++ ("0" :: "LINE" :: l1) ++ ("0" :: "LINE" :: l2) ++ ("0" :: "LINE" :: l3)
              ++ ("0" :: "LINE" :: l4) ++ ("0" :: "LINE" :: l5)), text, tx, ty.
    rewrite E. rewrite <- !app_assoc. reflexivity.
  - fold deg in Hin, Hout, Hdeg. subst rot.
    destruct (Qlt_le_dec deg (- (90))) as [Hlt|Hge].
    + rewrite Hout by (left; exact Hlt). left. lra.
    + destruct (Qlt_le_dec 90 deg) as [Hgt|Hle].
      * rewrite Hout by (right; exact Hgt). right. lra.
      * rewrite Hin by (split; assumption). left. lra.
Qed.

End Render.

(** A fresh writer, rendered twice: the two texts differ (C4 as stated
    fails). *)
Lemma toString_twice_differs :
  fst (toString (snd (toString new))) <> fst (toString new).
Proof.
  intros Heq. apply (f_equal String.length) in Heq. vm_compute in Heq. discriminate Heq.
Qed.


(** A vertical dimension from (0, 0) to (0, 10), on the reference host. *)
Lemma addDimension_rotation_witness :
  (~ dimDist (host := Ref.host) 0 0 0 10 < 1 # 10)
  /\ - Math_PI <= Math_atan2 (Host := Ref.host) (10 - 0) (0 - 0) <= Math_PI
  /\ (- (90) <= dimTextRot (Math_atan2 (Host := Ref.host) (10 - 0) (0 - 0)) <= 90
      \/ 270 < dimTextRot (Math_atan2 (Host := Ref.host) (10 - 0) (0 - 0)) <= 360).
Proof.
  assert (H1 : ~ dimDist (host := Ref.host) 0 0 0 10 < 1 # 10).
  { intros H. vm_compute in H. discriminate H. }
  assert (H2 : - Math_PI <= Math_atan2 (Host := Ref.host) (10 - 0) (0 - 0) <= Math_PI).
  { split; vm_compute; intros H; discriminate H. }
  split; [exact H1 | split; [exact H2|]].
  apply (addDimension_rotation (host := Ref.host) 0 0 0 10 None 20 new H1 H2).
Defined.

(** C5 as stated fails on a dimension measured from right to left: from
    (0, 0) to (-10, 0) the angle is [Math.PI], 180 degrees, and the
    rotation written is 360, outside [(-90, 90]]. *)
Lemma addDimension_rotation_360 :
  let c := addDimension (host := Ref.host) 0 0 (- (10)) 0 None 20 [] in
  (~ dimDist (host := Ref.host) 0 0 (- (10)) 0 < 1 # 10)
  /\ Math_atan2 (Host := Ref.host) (0 - 0) (- (10) - 0) = Math_PI
  /\ skipn (List.length c - 16) c
     = [ "0"; "TEXT"; "8"; "TEXT"; "10"; "-9.200"; "20"; "-23.750"; "30"; "0.0";
         "40"; "3.5"; "50"; "360"; "1"; "10.0" ]
  /\ Qred (dimTextRot (Math_atan2 (Host := Ref.host) (0 - 0) (- (10) - 0))) = 360
  /\ ~ (- (90) < 360 <= 90).
Proof.
  cbv zeta. split; [|split; [|split; [|split]]].
  - intros H. vm_compute in H. discriminate H.
  - vm_compute. reflexivity.
  - vm_compute. reflexivity.
  - vm_compute. reflexivity.
  - intros [_ H]. vm_compute in H. apply H. reflexivity.
Qed.

End WriterFacts.

(** ** What [generateFabricationFiles] does to its input *)

Module FrameFacts.
Import SimpleDxfWriter Geometry FrameSpec.
Local Open Scope list_scope.
Local Open Scope Q_scope.

Lemma Forall2_remap (holes : list Hole.t) : Forall2 hole_moved holes (map remapHole holes).
Proof.
  induction holes as [|h holes IH]; simpl; constructor; [|exact IH].
  unfold hole_moved, remapHole, notchSize. simpl. repeat split.
Qed.

Section Frame.
Context {host : Host}.

Lemma drawPanel_after (Unit_Ref : string) (panel : PartGeometry.t) :
  PartGeometry.Type_ panel = PartGeometry.Panel ->
  part_after panel (snd (drawPanel Unit_Ref panel)).
Proof.
  intros Hty. unfold part_after, is_tray_panel, drawPanel. rewrite Hty.
  destruct (isTray panel) eqn:E; cbn.
  - repeat split; try assumption.
    destruct (PartGeometry.Holes panel); simpl; [apply Forall2_remap | exact I].
  - repeat split; assumption.
Qed.

Lemma forEachPanel_after (Unit_Ref : string) (parts : list PartGeometry.t) :
  Forall2 part_after parts (snd (forEachPanel Unit_Ref parts)).
Proof.
  induction parts as [|part parts IH]; simpl; [constructor|].
  destruct (forEachPanel Unit_Ref parts) as [files rest'].
  destruct (PartGeometry.Type_ part) eqn:Hty.
  - pose proof (drawPanel_after Unit_Ref part Hty) as Hp.
    destruct (drawPanel Unit_Ref part) as [file part']. simpl in *.
    constructor; assumption.
  - simpl. constructor; [|exact IH].
    unfold part_after, is_tray_panel. rewrite Hty. repeat split.
Qed.

(** C9: the call leaves every field of the input as it was, except that in
    each panel not marked flat every hole has [X] and [Y] increased by the
    notch size [FLANGE - D/2], which is 34.25; the holes of flat panels and
    of profiles are untouched. *)
Theorem generateFabricationFiles_frame (data : ExtractedData.t) :
  let data' := snd (generateFabricationFiles data) in
  ExtractedData.Project_ID data' = ExtractedData.Project_ID data
  /\ ExtractedData.Unit_Ref data' = ExtractedData.Unit_Ref data
  /\ ExtractedData.Global_Dims data' = ExtractedData.Global_Dims data
  /\ ExtractedData.Base_Height data' = ExtractedData.Base_Height data
  /\ ExtractedData.Material_Specs data' = ExtractedData.Material_Specs data
  /\ ExtractedData.Insulation data' = ExtractedData.Insulation data
  /\ ExtractedData.Cuts data' = ExtractedData.Cuts data
  /\ Forall2 part_after (ExtractedData.Parts_List data) (ExtractedData.Parts_List data')
  /\ FLANGE - BEND_DEDUCTION / 2 == 34.25.
Proof.
  cbv zeta. unfold generateFabricationFiles.
  pose proof (forEachPanel_after (ExtractedData.Unit_Ref data) (ExtractedData.Parts_List data))
    as Hparts.
  destruct (forEachPanel (ExtractedData.Unit_Ref data) (ExtractedData.Parts_List data))
    as [panelFiles parts].
  simpl in *. repeat split; try reflexivity. exact Hparts.
Qed.

End Frame.

(** A run on a tray panel, a flat panel and a profile with one hole each:
    only the hole of the tray panel moves, from (10, 20) to (44.25, 54.25),
    that is (177/4, 217/4). *)
Example generateFabricationFiles_holes :
  let hole := Hole.mk Hole.Circle 10 20 12 None in
  let part name type notes :=
    PartGeometry.mk name type "GI" 1 300 200 notes (Some [hole]) in
  let data :=
    ExtractedData.mk "P" "U1" (1, 1, 1) 0 ("a", "b") 25 ((1, 1), (1, 1))
      [ part "Tray" PartGeometry.Panel None;
        part "Plate" PartGeometry.Panel (Some "Flat plate");
        part "C 100x50x15" PartGeometry.Profile None ] in
  map (fun p => match PartGeometry.Holes p with
                | Some hs => map (fun h => (Qred (Hole.X h), Qred (Hole.Y h))) hs
                | None => []
                end)
      (ExtractedData.Parts_List (snd (generateFabricationFiles (host := Ref.host) data)))
  = [ [(177 # 4, 217 # 4)]; [(10, 20)]; [(10, 20)] ].
Proof. lazy. reflexivity. Qed.

End FrameFacts.

(** ** The parser *)

Module ParserFacts.
Import JS Parser ParserSpec.
Local Open Scope list_scope.

(** *** The loop bound of the model is never reached *)

Lemma next_shorter (lines rest : list string) (p : pair) :
  next lines = Some (p, rest) -> (List.length rest < List.length lines)%nat.
Proof.
  destruct lines as [|c [|v r]]; simpl; intros H; inversion H; subst; simpl; lia.
Qed.

Lemma readFields_shorter {A : Type} (set : pair -> A -> A) (lines : list string) :
  forall a, (List.length (snd (readFields set a lines)) <= List.length lines)%nat.
Proof.
  induction lines as [lines IH] using (well_founded_induction
                                         (Wf_nat.well_founded_ltof _ (@List.length string))).
  intros a. destruct lines as [|c [|v r]]; simpl; [lia| |].
  - destruct (code_is 0 (parseInt c)); simpl; lia.
  - destruct (code_is 0 (parseInt c)); simpl; [lia|].
    specialize (IH r ltac:(unfold Wf_nat.ltof; simpl; lia) (set (parseInt c, Some v) a)). lia.
Qed.

Lemma sectionStart_shorter (p : pair) (lines : list string) :
  (List.length (snd (sectionStart p lines)) <= List.length lines)%nat.
Proof.
  unfold sectionStart.
  destruct (code_is 0 (fst p) && value_is "SECTION" (snd p))%bool; simpl; [|lia].
  destruct (next lines) as [[p2 lines']|] eqn:E; simpl; [|lia].
  apply next_shorter in E. lia.
Qed.

(** With more fuel than lines, [readVertices] returns, and what it leaves
    is no longer than what it was given. *)
Lemma readVertices_ok (fuel : nat) :
  forall lines points b, (List.length lines < fuel)%nat ->
  exists points' b' rest,
    readVertices fuel lines points b = Ok (points', b', rest)
    /\ (List.length rest <= List.length lines)%nat.
Proof.
  induction fuel as [|fuel IH]; intros lines points b Hlen; [lia|].
  simpl. destruct (next lines) as [[vHeader rest]|] eqn:E.
  - pose proof (next_shorter _ _ _ E) as Hr.
    destruct (value_is "SEQEND" (snd vHeader)).
    + do 3 eexists. split; [reflexivity | lia].
    + destruct (value_is "VERTEX" (snd vHeader)).
      * pose proof (readFields_shorter setVertex rest (zero, zero)) as Hf.
        destruct (readFields setVertex (zero, zero) rest) as [v rest'] eqn:Ev.
        simpl in Hf.
        destruct (IH rest' (points ++ [v]) (updateBounds (fst v) (snd v) b) ltac:(lia))
          as (p' & b' & r' & Heq & Hle).
        exists p', b', r'. split; [exact Heq | lia].
      * destruct (IH rest points b ltac:(lia)) as (p' & b' & r' & Heq & Hle).
        exists p', b', r'. split; [exact Heq | lia].
  - do 3 eexists. split; [reflexivity | lia].
Qed.


(** A record reader returns or throws; it does not run out of fuel. *)
Lemma readEntity_ok (fuel : nat) (type : option string) (lines : list string) (st : pstate) :
  (List.length lines < fuel)%nat ->
  (exists st' rest, readEntity fuel type lines st = Ok (st', rest)
                    /\ (List.length rest <= List.length lines)%nat)
  \/ readEntity fuel type lines st = TypeError.
Proof.
  intros Hlen. unfold readEntity.
  destruct (value_is "LINE" type).
  { pose proof (readFields_shorter setLine lines
                  (LINE (Some "0") (Some 7%Z) (zero, zero) (zero, zero))) as Hf.
    destruct (readFields setLine _ lines) as [e rest]. simpl in Hf.
    left. destruct e; do 2 eexists; (split; [reflexivity | lia]). }
  destruct (value_is "CIRCLE" type).
  { pose proof (readFields_shorter setCircle lines
                  (CIRCLE (Some "0") (Some 7%Z) (zero, zero) zero)) as Hf.
    destruct (readFields setCircle _ lines) as [e rest]. simpl in Hf.
    left. destruct e; do 2 eexists; (split; [reflexivity | lia]). }
  destruct (value_is "TEXT" type).
  { pose proof (readFields_shorter setText lines
                  (TEXT (Some "0") (Some 7%Z) zero zero (Fin 10) (Some ""))) as Hf.
    destruct (readFields setText _ lines) as [e rest]. simpl in Hf.
    destruct e as [| |? ? ? ? ? [t|]|];
      try (left; do 2 eexists; (split; [reflexivity | lia])).
    right. reflexivity. }
  destruct (value_is "POLYLINE" type).
  { pose proof (readFields_shorter setPolyline lines
                  (POLYLINE (Some "0") (Some 7%Z) [] false)) as Hf.
    destruct (readFields setPolyline _ lines) as [e rest]. simpl in Hf.
    destruct e; try (left; do 2 eexists; (split; [reflexivity | lia])).
    destruct (readVertices_ok fuel rest [] (bounds st) ltac:(lia))
      as (p' & b' & r' & Heq & Hle).
    rewrite Heq. left. do 2 eexists. split; [reflexivity | lia]. }
  left. do 2 eexists. split; [reflexivity | lia].
Qed.


Lemma mainLoop_ok (fuel : nat) :
  forall lines inEntities st, (List.length lines < fuel)%nat ->
  mainLoop fuel lines inEntities st <> OutOfFuel.
Proof.
  induction fuel as [|fuel IH]; intros lines inEntities st Hlen; [lia|].
  simpl. destruct (next lines) as [[p rest]|] eqn:E; [|discriminate].
  pose proof (next_shorter _ _ _ E) as Hr.
  pose proof (sectionStart_shorter p rest) as Hs.
  destruct (sectionStart p rest) as [[|] rest1]; simpl in Hs; [apply IH; lia|].
  match goal with |- context [if ?c then _ else _] => destruct c end; [|apply IH; lia].
  destruct (readEntity_ok fuel (snd p) rest1 st ltac:(lia)) as [(st' & r' & Heq & Hle)|Heq];
    rewrite Heq; [apply IH; lia | discriminate].
Qed.


(** [parseDxf] terminates: the loop bound of the model is never what ends
    a run. *)
Lemma parseDxf_terminates (content : string) : parseDxf content <> OutOfFuel.
Proof.
  unfold parseDxf, parseLines.
  pose proof (mainLoop_ok (S (List.length (map trim (split_nl content))))
                (map trim (split_nl content)) false initial ltac:(lia)) as H.
  destruct (mainLoop _ _ _ _); [discriminate | discriminate | congruence].
Qed.

(** *** The bounds are those of the entities *)

Lemma grow_app (b : DxfBounds) (ps qs : list (jsnum * jsnum)) :
  grow b (ps ++ qs) = grow (grow b ps) qs.
Proof. unfold grow. apply fold_left_app. Qed.

Lemma accounted_push (st : pstate) (e : DxfEntity) (b : DxfBounds) :
  accounted st -> b = grow (bounds st) (contributes e) ->
  accounted (push e (mkState (entities st) b)).
Proof.
  unfold accounted, push. intros Hst Hb. cbn [entities bounds].
  rewrite flat_map_app, grow_app, <- Hst. cbn [flat_map]. rewrite app_nil_r. exact Hb.
Qed.

Lemma readVertices_grow (fuel : nat) :
  forall lines points b points' b' rest,
  readVertices fuel lines points b = Ok (points', b', rest) ->
  exists new, points' = points ++ new /\ b' = grow b new.
Proof.
  induction fuel as [|fuel IH]; intros lines points b points' b' rest H; [discriminate|].
  simpl in H. destruct (next lines) as [[vHeader rest0]|].
  - destruct (value_is "SEQEND" (snd vHeader)).
    + inversion H; subst. exists []. now rewrite app_nil_r.
    + destruct (value_is "VERTEX" (snd vHeader)).
      * destruct (readFields setVertex (zero, zero) rest0) as [v rest1].
        apply IH in H. destruct H as (new & Hp & Hb).
        exists (v :: new). rewrite <- app_assoc in Hp. split; [exact Hp | exact Hb].
      * apply IH in H. exact H.
  - inversion H; subst. exists []. now rewrite app_nil_r.
Qed.

Lemma readEntity_accounted (fuel : nat) (type : option string) (lines : list string)
    (st st' : pstate) (rest : list string) :
  accounted st -> readEntity fuel type lines st = Ok (st', rest) -> accounted st'.
Proof.
  intros Hst. unfold readEntity.
  destruct (value_is "LINE" type).
  { destruct (readFields setLine _ lines) as [e rest0].
    destruct e; intros H; inversion H; subst; try exact Hst.
    apply (accounted_push st (LINE layer color p0 p1)); [exact Hst | reflexivity]. }
  destruct (value_is "CIRCLE" type).
  { destruct (readFields setCircle _ lines) as [e rest0].
    destruct e; intros H; inversion H; subst; try exact Hst.
    apply (accounted_push st (CIRCLE layer color center radius)); [exact Hst | reflexivity]. }
  destruct (value_is "TEXT" type).
  { destruct (readFields setText _ lines) as [e rest0].
    destruct e as [| |layer color x y height [t|]|]; intros H; inversion H; subst;
      try exact Hst.
    apply (accounted_push st (TEXT layer color x y height (Some t))); [exact Hst | reflexivity]. }
  destruct (value_is "POLYLINE" type).
  { destruct (readFields setPolyline _ lines) as [e rest0].
    destruct e; try (intros H; inversion H; subst; exact Hst).
    destruct (readVertices fuel rest0 [] (bounds st)) as [[[pts b] r]| |] eqn:E;
      intros H; inversion H; subst.
    apply readVertices_grow in E. destruct E as (new & Hp & Hb). simpl in Hp. subst pts.
    apply (accounted_push st (POLYLINE layer color new closed)); [exact Hst | exact Hb]. }
  intros H; inversion H; subst; exact Hst.
Qed.

Lemma mainLoop_accounted (fuel : nat) :
  forall lines inEntities st st',
  accounted st -> mainLoop fuel lines inEntities st = Ok st' -> accounted st'.
Proof.
  induction fuel as [|fuel IH]; intros lines inEntities st st' Hst H; [discriminate|].
  simpl in H. destruct (next lines) as [[p rest]|]; [|inversion H; subst; exact Hst].
  destruct (sectionStart p rest) as [[|] rest1]; [eapply IH; eassumption|].
  match type of H with context [if ?c then _ else _] => destruct c end;
    [|eapply IH; eassumption].
  destruct (readEntity fuel (snd p) rest1 st) as [[st1 rest2]| |] eqn:E; try discriminate.
  eapply IH; [|exact H]. eapply readEntity_accounted; eassumption.
Qed.

(** C7: when no entity of the result has passed a coordinate to
    [updateBounds] (there is no entity, or only polylines without
    vertices), the bounds returned are exactly (0, 0, 100, 100). *)
Theorem parseDxf_fallback (content : string) (r : pstate) :
  parseDxf content = Ok r ->
  flat_map contributes (entities r) = [] ->
  bounds r = fallback.
Proof.
  unfold parseDxf, parseLines. intros H Hnone.
  destruct (mainLoop _ _ _ _) as [st| |] eqn:E; try discriminate.
  inversion H; subst r. clear H.
  apply mainLoop_accounted in E; [|reflexivity].
  assert (Hents : entities (finish st) = entities st).
  { unfold finish. destruct (minX (bounds st)); reflexivity. }
  rewrite Hents in Hnone. unfold accounted in E. rewrite Hnone in E. simpl in E.
  unfold finish. rewrite E. reflexivity.
Qed.

(** The document of a writer to which nothing was added. *)
Lemma parseDxf_fallback_witness :
  parseDxf (fst (SimpleDxfWriter.toString SimpleDxfWriter.new)) = Ok (mkState [] fallback)
  /\ bounds (mkState [] fallback) = fallback.
Proof.
  assert (H : parseDxf (fst (SimpleDxfWriter.toString SimpleDxfWriter.new))
              = Ok (mkState [] fallback)) by reflexivity.
  split; [exact H|].
  apply (parseDxf_fallback _ _ H). reflexivity.
Defined.

(** C10 fails on a document that ends after the code of a TEXT value: the
    last pair has an [undefined] value, [text.text] becomes [undefined] and
    reading its [length] throws. *)
Theorem parseDxf_throws :
  parseDxf (join_nl ["0"; "SECTION"; "2"; "ENTITIES"; "0"; "TEXT"; "1"]) = TypeError.
Proof. reflexivity. Qed.

End ParserFacts.

(** ** Documents with an even number of lines *)

Module EvenFacts.
Import JS Parser ParserSpec ParserFacts.
Local Open Scope list_scope.

Lemma next_even (lines rest : list string) (p : pair) :
  Nat.even (List.length lines) = true -> next lines = Some (p, rest) ->
  Nat.even (List.length rest) = true /\ snd p <> None.
Proof.
  destruct lines as [|c [|v r]]; simpl; intros He H; try discriminate.
  inversion H; subst. split; [exact He | discriminate].
Qed.

(** On an even number of lines every pair has its value, so a property
    kept by every assignment of a value is kept by [readFields]. *)
Lemma readFields_even {A : Type} (set : pair -> A -> A) (P : A -> Prop) :
  (forall code v a, P a -> P (set (code, Some v) a)) ->
  forall lines a,
  Nat.even (List.length lines) = true -> P a ->
  P (fst (readFields set a lines))
  /\ Nat.even (List.length (snd (readFields set a lines))) = true.
Proof.
  intros Hset lines.
  induction lines as [lines IH] using (well_founded_induction
                                         (Wf_nat.well_founded_ltof _ (@List.length string))).
  intros a He Ha. destruct lines as [|c [|v r]]; [now split | discriminate He |].
  cbn [readFields]. destruct (code_is 0 (parseInt c)); [now split|].
  apply IH; [unfold Wf_nat.ltof; simpl; lia | exact He | apply Hset, Ha].
Qed.

Lemma sectionStart_even (p : pair) (lines : list string) :
  Nat.even (List.length lines) = true ->
  Nat.even (List.length (snd (sectionStart p lines))) = true.
Proof.
  intros He. unfold sectionStart.
  destruct (code_is 0 (fst p) && value_is "SECTION" (snd p))%bool; [|exact He].
  destruct (next lines) as [[p2 lines']|] eqn:E; [|exact He].
  apply (next_even _ _ _ He E).
Qed.

Lemma readVertices_even (fuel : nat) :
  forall lines points b points' b' rest,
  Nat.even (List.length lines) = true ->
  readVertices fuel lines points b = Ok (points', b', rest) ->
  Nat.even (List.length rest) = true.
Proof.
  induction fuel as [|fuel IH]; intros lines points b points' b' rest He H; [discriminate|].
  simpl in H. destruct (next lines) as [[vHeader rest0]|] eqn:E.
  - destruct (next_even _ _ _ He E) as [He0 _].
    destruct (value_is "SEQEND" (snd vHeader)); [inversion H; subst; exact He0|].
    destruct (value_is "VERTEX" (snd vHeader)); [|eapply IH; eassumption].
    destruct (readFields_even setVertex (fun _ => True) (fun _ _ _ _ => I) rest0 (zero, zero)
                He0 I) as [_ He1].
    destruct (readFields setVertex (zero, zero) rest0) as [v rest1].
    eapply IH; eassumption.
  - inversion H; subst. exact He.
Qed.

Lemma setText_has_text (code : option Z) (v : string) (e : DxfEntity) :
  has_text e -> has_text (setText (code, Some v) e).
Proof.
  destruct e as [| |layer color x y height [t|]|]; cbn [has_text setText]; try tauto.
  destruct (code_is 1 code); tauto.
Qed.

Lemma readEntity_even (fuel : nat) (type : option string) (lines : list string) (st : pstate) :
  Nat.even (List.length lines) = true -> (List.length lines < fuel)%nat ->
  exists st' rest,
    readEntity fuel type lines st = Ok (st', rest)
    /\ Nat.even (List.length rest) = true
    /\ (List.length rest <= List.length lines)%nat.
Proof.
  intros He Hlen.
  destruct (readEntity_ok fuel type lines st Hlen) as [(st' & rest & Heq & Hle)|Herr].
  - exists st', rest. split; [exact Heq|]. split; [|exact Hle].
    revert Heq. unfold readEntity.
    destruct (value_is "LINE" type).
    { destruct (readFields_even setLine (fun _ => True) (fun _ _ _ _ => I) lines
                  (LINE (Some "0") (Some 7%Z) (zero, zero) (zero, zero)) He I) as [_ He1].
      destruct (readFields setLine _ lines) as [e r]. cbn [snd] in He1.
      destruct e; intros H; inversion H; subst; exact He1. }
    destruct (value_is "CIRCLE" type).
    { destruct (readFields_even setCircle (fun _ => True) (fun _ _ _ _ => I) lines
                  (CIRCLE (Some "0") (Some 7%Z) (zero, zero) zero) He I) as [_ He1].
      destruct (readFields setCircle _ lines) as [e r]. cbn [snd] in He1.
      destruct e; intros H; inversion H; subst; exact He1. }
    destruct (value_is "TEXT" type).
    { destruct (readFields_even setText (fun _ => True) (fun _ _ _ _ => I) lines
                  (TEXT (Some "0") (Some 7%Z) zero zero (Fin 10) (Some "")) He I) as [_ He1].
      destruct (readFields setText _ lines) as [e r]. cbn [snd] in He1.
      destruct e as [| |? ? ? ? ? [t|]|]; intros H; inversion H; subst; exact He1. }
    destruct (value_is "POLYLINE" type).
    { destruct (readFields_even setPolyline (fun _ => True) (fun _ _ _ _ => I) lines
                  (POLYLINE (Some "0") (Some 7%Z) [] false) He I) as [_ He1].
      destruct (readFields setPolyline _ lines) as [e r]. cbn [snd] in He1.
      destruct e; try (intros H; inversion H; subst; exact He1).
      destruct (readVertices fuel r [] (bounds st)) as [[[pts b] r']| |] eqn:E;
        intros H; inversion H; subst.
      eapply readVertices_even; eassumption. }
    intros H; inversion H; subst; exact He.
  - exfalso. revert Herr. unfold readEntity.
    destruct (value_is "LINE" type).
    { destruct (readFields setLine _ lines) as [e r]. destruct e; discriminate. }
    destruct (value_is "CIRCLE" type).
    { destruct (readFields setCircle _ lines) as [e r]. destruct e; discriminate. }
    destruct (value_is "TEXT" type).
    { destruct (readFields_even setText has_text setText_has_text lines
                  (TEXT (Some "0") (Some 7%Z) zero zero (Fin 10) (Some "")) He I) as [Ht _].
      destruct (readFields setText _ lines) as [e r]. cbn [fst] in Ht.
      destruct e as [| |? ? ? ? ? [t|]|]; try discriminate. destruct Ht. }
    destruct (value_is "POLYLINE" type); [|discriminate].
    destruct (readFields setPolyline _ lines) as [e r] eqn:Er. destruct e; try discriminate.
    destruct (readVertices_ok fuel r [] (bounds st)) as (p' & b' & r' & Heq & _).
    { pose proof (readFields_shorter setPolyline lines
                    (POLYLINE (Some "0") (Some 7%Z) [] false)) as Hs.
      rewrite Er in Hs. cbn [snd] in Hs. lia. }
    rewrite Heq. discriminate.
Qed.

Lemma mainLoop_even (fuel : nat) :
  forall lines inEntities st,
  Nat.even (List.length lines) = true -> (List.length lines < fuel)%nat ->
  exists st', mainLoop fuel lines inEntities st = Ok st'.
Proof.
  induction fuel as [|fuel IH]; intros lines inEntities st He Hlen; [lia|].
  simpl. destruct (next lines) as [[p rest]|] eqn:E; [|eexists; reflexivity].
  pose proof (next_shorter _ _ _ E) as Hr.
  destruct (next_even _ _ _ He E) as [He0 _].
  pose proof (sectionStart_shorter p rest) as Hs.
  pose proof (sectionStart_even p rest He0) as He1.
  destruct (sectionStart p rest) as [[|] rest1]; cbn [snd] in Hs, He1; [apply IH; [exact He1 | lia]|].
  match goal with |- context [if ?c then _ else _] => destruct c end;
    [|apply IH; [exact He1 | lia]].
  destruct (readEntity_even fuel (snd p) rest1 st He1 ltac:(lia)) as (st' & r' & Heq & He2 & Hle).
  rewrite Heq. apply IH; [exact He2 | lia].
Qed.

(** X17: on a text with an even number of lines [parseDxf] returns a
    result: the exception of C10 needs a last line without its pair. *)
Lemma parseDxf_even (content : string) :
  Nat.even (List.length (split_nl content)) = true -> exists r, parseDxf content = Ok r.
Proof.
  intros He. unfold parseDxf, parseLines.
  destruct (mainLoop_even (S (List.length (map trim (split_nl content))))
              (map trim (split_nl content)) false initial) as (st & Hst).
  - now rewrite length_map.
  - lia.
  - rewrite Hst. eexists. reflexivity.
Qed.

End EvenFacts.

(** ** Documents made of records *)

Module DocFacts.
Import JS Parser ParserSpec DocSpec ParserFacts.
Local Open Scope list_scope.



Lemma boundary_tokens (r : record) (rest : list string) : boundary (tokens r ++ rest) = true.
Proof. reflexivity. Qed.

Lemma length_flatten (fs : list field) : List.length (flatten fs) = (2 * List.length fs)%nat.
Proof. induction fs as [|f fs IH]; simpl; lia. Qed.







(** *** The main loop, one step at a time *)






(** *** Whole documents *)











Lemma finish_entities (st : pstate) : entities (finish st) = entities st.
Proof. unfold finish. destruct (minX (bounds st)); reflexivity. Qed.



End DocFacts.

(** ** Strings and printed numbers *)

Module StringFacts.
Import JS RoundTripSpec WriterFacts.
Local Open Scope list_scope.

Lemma split_nl_single (s : string) : no_nl s = true -> split_nl s = [s].
Proof.
  induction s as [|c r IH]; intros H; [reflexivity|].
  simpl in H. apply andb_true_iff in H. destruct H as [Hc Hr].
  apply negb_true_iff in Hc. simpl. rewrite Hc, (IH Hr). reflexivity.
Qed.

Lemma split_nl_app (s t : string) :
  no_nl s = true -> split_nl (s ++ String nl t) = s :: split_nl t.
Proof.
  induction s as [|c r IH]; intros H.
  - reflexivity.
  - simpl in H. apply andb_true_iff in H. destruct H as [Hc Hr].
    apply negb_true_iff in Hc. simpl. rewrite Hc, (IH Hr). reflexivity.
Qed.

(** Joining lines that hold no line break and splitting again gives the
    lines back. *)
Lemma split_join (lines : list string) :
  lines <> [] -> forallb no_nl lines = true -> split_nl (join_nl lines) = lines.
Proof.
  induction lines as [|x lines IH]; intros Hne Hall; [congruence|].
  simpl in Hall. apply andb_true_iff in Hall. destruct Hall as [Hx Hall].
  destruct lines as [|y lines].
  - simpl. now apply split_nl_single.
  - change (join_nl (x :: y :: lines)) with (x ++ String nl (join_nl (y :: lines)))%string.
    rewrite split_nl_app by exact Hx. rewrite IH by (try discriminate; exact Hall).
    reflexivity.
Qed.

(** *** Decimal digits *)











(** *** Cutting a string in two *)




(** *** White space *)






(** *** Reading digits *)

Lemma span_digits_all (s : string) :
  all_chars is_digit s = true -> span_digits s = (s, EmptyString).
Proof.
  induction s as [|c r IH]; intros H; [reflexivity|].
  simpl in H. apply andb_true_iff in H. destruct H as [Hc Hr].
  simpl. now rewrite Hc, (IH Hr).
Qed.

Lemma span_digits_app (s : string) (c : ascii) (r : string) :
  all_chars is_digit s = true -> is_digit c = false ->
  span_digits (s ++ String c r) = (s, String c r).
Proof.
  intros Hs Hc. induction s as [|d s IH].
  - simpl. now rewrite Hc.
  - simpl in Hs. apply andb_true_iff in Hs. destruct Hs as [Hd Hs].
    simpl. now rewrite Hd, (IH Hs).
Qed.




(** *** [toFixed(3)] and back *)

Section Fixed.
Context {host : Host}.
Local Open Scope Q_scope.






End Fixed.

End StringFacts.

(** ** Writing a drawing and reading it back *)

Module RoundTripFacts.
Import JS SimpleDxfWriter Parser ParserSpec DocSpec RoundTripSpec.
Import WriterFacts ParserFacts DocFacts StringFacts.
Local Open Scope list_scope.



Section RoundTrip.
Context {host : Host}.


(** *** What the calls append *)

Lemma fold_addVertex (layer : string) (points : list (Q * Q)) :
  forall c, fold_left (addVertex layer) points c
            = c ++ flat_map (addVertex layer []) points.
Proof.
  induction points as [|p points IH]; intros c; cbn [fold_left flat_map].
  - now rewrite app_nil_r.
  - rewrite IH. change (addVertex layer c p) with (c ++ addVertex layer [] p).
    now rewrite <- app_assoc.
Qed.










(** *** What the records read back as *)






End RoundTrip.



End RoundTripFacts.

(** ** More on the flat pattern of a folded section *)

Module FlatPatternMore.
Import Geometry FlatPatternSpec FlatPatternFacts.
Local Open Scope list_scope.
Local Open Scope Q_scope.

(** X1: with no segment the flat length is not 0 but one bend deduction,
    [2 * thickness], and with one segment it is that segment; neither has
    a bend. *)
Theorem calculateFlatPattern_short (s t : Q) :
  flatLength (calculateFlatPattern [] t) == 2 * t
  /\ bendPositions (calculateFlatPattern [] t) = []
  /\ flatLength (calculateFlatPattern [s] t) == s
  /\ bendPositions (calculateFlatPattern [s] t) = [].
Proof.
  unfold calculateFlatPattern, sum, ofNat. cbn [flatLength bendPositions List.length
    fold_left Nat.sub seq map Z.of_nat].
  split; [|split; [reflexivity | split; [|reflexivity]]].
  - change (inject_Z 0) with 0. ring.
  - change (inject_Z (Z.of_nat 1)) with 1. ring.
Qed.

Lemma fold_sum (l : list Q) : forall a, fold_left Qplus l a == a + sum l.
Proof.
  unfold sum. induction l as [|x l IH]; intros a; cbn [fold_left].
  - ring.
  - rewrite (IH (a + x)), (IH (0 + x)). ring.
Qed.

Lemma sum_cons (x : Q) (l : list Q) : sum (x :: l) == x + sum l.
Proof. unfold sum at 1. cbn [fold_left]. rewrite fold_sum. ring. Qed.

Lemma sum_app (l m : list Q) : sum (l ++ m) == sum l + sum m.
Proof.
  induction l as [|x l IH]; cbn [app].
  - unfold sum at 2. cbn [fold_left]. ring.
  - rewrite !sum_cons, IH. ring.
Qed.

(** A list whose entries all exceed [c] sums to more than [c] times its
    length, unless it is empty. *)
Lemma sum_above (c : Q) (l : list Q) :
  (forall x, In x l -> c < x) -> c * ofNat (List.length l) <= sum l.
Proof.
  induction l as [|x l IH]; intros H.
  - unfold sum, ofNat. cbn [List.length fold_left Z.of_nat]. change (inject_Z 0) with 0. lra.
  - rewrite sum_cons. cbn [List.length]. rewrite ofNat_succ.
    specialize (IH (fun y Hy => H y (or_intror Hy))).
    pose proof (H x (or_introl eq_refl)). lra.
Qed.

Lemma sum_above_strict (c : Q) (l : list Q) :
  l <> [] -> (forall x, In x l -> c < x) -> c * ofNat (List.length l) < sum l.
Proof.
  destruct l as [|x l]; [congruence|]. intros _ H.
  rewrite sum_cons. cbn [List.length]. rewrite ofNat_succ.
  pose proof (sum_above c l (fun y Hy => H y (or_intror Hy))).
  pose proof (H x (or_introl eq_refl)). lra.
Qed.

Lemma ofNat_sub (n m : nat) : (m <= n)%nat -> ofNat (n - m) == ofNat n - ofNat m.
Proof.
  intros H. unfold ofNat. rewrite Nat2Z.inj_sub by exact H.
  unfold Zminus. rewrite inject_Z_plus, inject_Z_opp. ring.
Qed.

(** X2: when every segment is longer than the bend deduction, every bend
    lies strictly inside the strip. *)
Theorem bends_inside (segments : list Q) (t p : Q) :
  0 <= t ->
  (forall x, In x segments -> 2 * t < x) ->
  In p (bendPositions (calculateFlatPattern segments t)) ->
  0 < p < flatLength (calculateFlatPattern segments t).
Proof.
  intros Ht Hall Hp. apply In_nth_error in Hp. destruct Hp as [i Hi].
  assert (Hlt : (i < List.length segments - 1)%nat).
  { rewrite <- (bend_length segments t). apply nth_error_Some. congruence. }
  rewrite bend_nth in Hi by exact Hlt. injection Hi as <-.
  unfold calculateFlatPattern, cumOuter. cbn [flatLength].
  pose proof (sum_app (firstn (S i) segments) (skipn (S i) segments)) as Hsplit.
  rewrite firstn_skipn in Hsplit.
  assert (Hfirst : 2 * t * ofNat (List.length (firstn (S i) segments))
                   < sum (firstn (S i) segments)).
  { apply sum_above_strict.
    - destruct segments; [simpl in Hlt; lia | discriminate].
    - intros x Hx. apply Hall. rewrite <- (firstn_skipn (S i) segments).
      apply in_or_app. left. exact Hx. }
  assert (Hlast : 2 * t * ofNat (List.length (skipn (S i) segments))
                  < sum (skipn (S i) segments)).
  { apply sum_above_strict.
    - intros E. apply (f_equal (@List.length Q)) in E.
      rewrite length_skipn in E. simpl in E. lia.
    - intros x Hx. apply Hall. rewrite <- (firstn_skipn (S i) segments).
      apply in_or_app. right. exact Hx. }
  rewrite length_firstn in Hfirst. rewrite length_skipn in Hlast.
  replace (Nat.min (S i) (List.length segments)) with (S i) in Hfirst by lia.
  rewrite ofNat_succ in Hfirst. rewrite ofNat_sub, ofNat_succ in Hlast by lia.
  revert Hsplit Hfirst Hlast.
  generalize (sum segments) (sum (firstn (S i) segments)) (sum (skipn (S i) segments))
             (ofNat i) (ofNat (List.length segments)).
  intros s a b qi qn Hsplit Hfirst Hlast.
  assert (Hdiv : 2 * t / 2 == t) by (field).
  rewrite Hdiv. split; nra.
Qed.

(** The profile 15-35-100-35-15 in 2 mm sheet: its first bend, at 13. *)
Lemma bends_inside_witness :
  let r := calculateFlatPattern [15; 35; 100; 35; 15] 2 in
  let p := hd 0 (bendPositions r) in
  0 <= 2
  /\ (forall x, In x [15; 35; 100; 35; 15] -> 2 * 2 < x)
  /\ In p (bendPositions r)
  /\ p == 13
  /\ 0 < p < flatLength r.
Proof.
  cbv zeta.
  assert (H1 : 0 <= 2) by lra.
  assert (H2 : forall x, In x [15; 35; 100; 35; 15] -> 2 * 2 < x).
  { intros x Hx. cbn [In] in Hx.
    repeat (destruct Hx as [<-|Hx]; [reflexivity|]). destruct Hx. }
  assert (H3 : In (hd 0 (bendPositions (calculateFlatPattern [15; 35; 100; 35; 15] 2)))
                 (bendPositions (calculateFlatPattern [15; 35; 100; 35; 15] 2))).
  { left. reflexivity. }
  split; [exact H1 | split; [exact H2 | split; [exact H3 | split; [reflexivity|]]]].
  apply (bends_inside [15; 35; 100; 35; 15] 2 _ H1 H2 H3).
Defined.

End FlatPatternMore.

(** ** Profiles *)

Module ProfileFacts.
Import JS SimpleDxfWriter Geometry RoundTripSpec PartsSpec.
Import FlatPatternFacts FlatPatternMore StringFacts WriterFacts.
Local Open Scope list_scope.

Lemma append_nil_r (s : string) : (s ++ "")%string = s.
Proof. induction s as [|c r IH]; simpl; [reflexivity | now rewrite IH]. Qed.

Lemma span_digits_stops (s t : string) :
  all_chars is_digit s = true -> stops t = true -> span_digits (s ++ t) = (s, t).
Proof.
  intros Hs Ht. destruct t as [|c r].
  - rewrite append_nil_r. now apply span_digits_all.
  - apply span_digits_app; [exact Hs|]. simpl in Ht. now apply negb_true_iff in Ht.
Qed.

Lemma is_x_not_digit (c : ascii) : is_x c = true -> is_digit c = false.
Proof.
  unfold is_x. intros H. apply orb_true_iff in H.
  destruct H as [H|H]; apply Ascii.eqb_eq in H; subst c; reflexivity.
Qed.

Lemma matchDimsAt_not_digit (c : ascii) (r : string) :
  is_digit c = false -> matchDimsAt (String c r) = None.
Proof. intros H. unfold matchDimsAt. cbn [span_digits]. now rewrite H. Qed.

(** The search passes over what holds no digit. *)
Lemma matchDims_skip (pre s : string) :
  all_chars not_digit pre = true -> matchDims (pre ++ s) = matchDims s.
Proof.
  induction pre as [|c pre IH]; intros H; [reflexivity|].
  cbn [all_chars] in H. apply andb_true_iff in H. destruct H as [Hc Hpre].
  unfold not_digit in Hc. apply negb_true_iff in Hc.
  cbn [append matchDims]. rewrite matchDimsAt_not_digit by exact Hc. apply IH, Hpre.
Qed.

Lemma matchDimsAt_no_x (s : string) : all_chars not_x s = true -> matchDimsAt s = None.
Proof.
  intros H. unfold matchDimsAt.
  assert (Hr : forall s, all_chars not_x s = true ->
               all_chars not_x (snd (span_digits s)) = true).
  { clear. induction s as [|c r IH]; intros H; [reflexivity|].
    cbn [span_digits]. destruct (is_digit c); [|exact H].
    cbn [all_chars] in H. apply andb_true_iff in H. destruct H as [_ H].
    specialize (IH H). destruct (span_digits r). exact IH. }
  specialize (Hr s H). destruct (span_digits s) as [d1 r1]. cbn [snd] in Hr.
  destruct d1; [reflexivity|]. destruct r1 as [|c r2]; [reflexivity|].
  cbn [all_chars] in Hr. apply andb_true_iff in Hr. destruct Hr as [Hc _].
  unfold not_x in Hc. apply negb_true_iff in Hc. now rewrite Hc.
Qed.

Lemma matchDims_no_x (s : string) : all_chars not_x s = true -> matchDims s = None.
Proof.
  induction s as [|c r IH]; intros H.
  - reflexivity.
  - cbn [matchDims]. rewrite matchDimsAt_no_x by exact H.
    cbn [all_chars] in H. apply andb_true_iff in H. apply IH, H.
Qed.

(** X3: a name that holds no digit, or neither [x] nor [X], gives the
    fallback: the web handed in, the flange 35 and the lip 15. *)
Theorem parseProfileDims_default (name : string) (defaultWeb : Q) :
  all_chars not_digit name = true \/ all_chars not_x name = true ->
  parseProfileDims name defaultWeb = mkDims defaultWeb 35 15.
Proof.
  intros [H|H]; unfold parseProfileDims.
  - rewrite <- (append_nil_r name), matchDims_skip by exact H. reflexivity.
  - rewrite matchDims_no_x by exact H. reflexivity.
Qed.

Lemma parseProfileDims_default_witness :
  (all_chars not_digit "C-Channel" = true \/ all_chars not_x "C-Channel" = true)
  /\ parseProfileDims "C-Channel" 120 = mkDims 120 35 15.
Proof.
  assert (H : all_chars not_digit "C-Channel" = true \/ all_chars not_x "C-Channel" = true)
    by (left; reflexivity).
  split; [exact H|]. apply (parseProfileDims_default "C-Channel" 120 H).
Defined.

(** X4: in a name whose first digits are [d1 x d2 x d3], the three numbers
    are the web, the flange and the lip; the default web is not used. *)
Theorem parseProfileDims_three (pre d1 d2 d3 post : string) (x1 x2 : ascii)
    (defaultWeb : Q) :
  all_chars not_digit pre = true ->
  all_chars is_digit d1 = true -> d1 <> EmptyString ->
  all_chars is_digit d2 = true -> d2 <> EmptyString ->
  all_chars is_digit d3 = true -> d3 <> EmptyString ->
  is_x x1 = true -> is_x x2 = true -> stops post = true ->
  parseProfileDims (pre ++ d1 ++ String x1 (d2 ++ String x2 (d3 ++ post))) defaultWeb
  = mkDims (digitsQ d1) (digitsQ d2) (digitsQ d3).
Proof.
  intros Hpre H1 N1 H2 N2 H3 N3 Hx1 Hx2 Hpost.
  unfold parseProfileDims. rewrite matchDims_skip by exact Hpre.
  destruct d1 as [|c1 r1]; [congruence|].
  destruct d2 as [|c2 r2]; [congruence|].
  destruct d3 as [|c3 r3]; [congruence|].
  assert (Hat : matchDimsAt (String c1 r1 ++ String x1 (String c2 r2 ++ String x2 (String c3 r3 ++ post)))
                = Some (String c1 r1, String c2 r2, Some (String c3 r3))).
  { unfold matchDimsAt.
    rewrite span_digits_app by (try exact H1; apply is_x_not_digit, Hx1).
    cbv beta iota. rewrite Hx1.
    rewrite span_digits_app by (try exact H2; apply is_x_not_digit, Hx2).
    cbv beta iota. rewrite Hx2.
    rewrite span_digits_stops by assumption. reflexivity. }
  change (String c1 r1 ++ String x1 (String c2 r2 ++ String x2 (String c3 r3 ++ post)))%string
    with (String c1 (r1 ++ String x1 (String c2 r2 ++ String x2 (String c3 r3 ++ post)))) in *.
  cbn [matchDims]. rewrite Hat. reflexivity.
Qed.

Lemma parseProfileDims_three_witness :
  all_chars not_digit "C-Ch " = true
  /\ parseProfileDims "C-Ch 100x50x15" 0 = mkDims (digitsQ "100") (digitsQ "50") (digitsQ "15").
Proof.
  assert (Hpre : all_chars not_digit "C-Ch " = true) by reflexivity.
  split; [exact Hpre|].
  apply (parseProfileDims_three "C-Ch " "100" "50" "15" "" "x" "x" 0 Hpre);
    try reflexivity; discriminate.
Defined.

(** X5: in a name whose first digits are [d1 x d2] and no third number
    follows, the lip is 0, not the 15 of the fallback. *)
Theorem parseProfileDims_two (pre d1 d2 post : string) (x1 : ascii) (defaultWeb : Q) :
  all_chars not_digit pre = true ->
  all_chars is_digit d1 = true -> d1 <> EmptyString ->
  all_chars is_digit d2 = true -> d2 <> EmptyString ->
  is_x x1 = true -> ends_dims post = true ->
  parseProfileDims (pre ++ d1 ++ String x1 (d2 ++ post)) defaultWeb
  = mkDims (digitsQ d1) (digitsQ d2) 0.
Proof.
  intros Hpre H1 N1 H2 N2 Hx1 Hpost.
  unfold parseProfileDims. rewrite matchDims_skip by exact Hpre.
  destruct d1 as [|c1 r1]; [congruence|].
  destruct d2 as [|c2 r2]; [congruence|].
  assert (Hstops : stops post = true).
  { destruct post as [|c r]; [reflexivity|]. cbn in *.
    apply andb_true_iff in Hpost. apply Hpost. }
  assert (Hat : matchDimsAt (String c1 r1 ++ String x1 (String c2 r2 ++ post))
                = Some (String c1 r1, String c2 r2, None)).
  { unfold matchDimsAt.
    rewrite span_digits_app by (try exact H1; apply is_x_not_digit, Hx1).
    cbv beta iota. rewrite Hx1.
    rewrite span_digits_stops by assumption. cbv beta iota.
    destruct post as [|c r]; [reflexivity|].
    cbn in Hpost. apply andb_true_iff in Hpost. destruct Hpost as [_ Hx].
    apply negb_true_iff in Hx. now rewrite Hx. }
  change (String c1 r1 ++ String x1 (String c2 r2 ++ post))%string
    with (String c1 (r1 ++ String x1 (String c2 r2 ++ post))) in *.
  cbn [matchDims]. rewrite Hat. reflexivity.
Qed.

Lemma parseProfileDims_two_witness :
  all_chars not_digit "Angle " = true
  /\ parseProfileDims "Angle 40x40 mm" 0 = mkDims (digitsQ "40") (digitsQ "40") 0.
Proof.
  assert (Hpre : all_chars not_digit "Angle " = true) by reflexivity.
  split; [exact Hpre|].
  apply (parseProfileDims_two "Angle " "40" "40" " mm" "x" 0 Hpre);
    try reflexivity; discriminate.
Defined.

(** *** The strip of a profile *)

Lemma forEachBend_lines (length : Q) (bends : list Q) :
  forall idx prevY,
    List.length (filter is_bend_line (fst (forEachBend length bends idx prevY)))
    = List.length bends.
Proof.
  induction bends as [|pos rest IH]; intros idx prevY; [reflexivity|].
  cbn [forEachBend]. specialize (IH (S idx) pos).
  destruct (forEachBend length rest (S idx) pos) as [calls last].
  cbn [fst] in *. cbn. now rewrite IH.
Qed.



Lemma profileSegments_length (dims : ProfileDims) :
  List.length (profileSegments dims) = if Qltb 0 (lip dims) then 5%nat else 3%nat.
Proof. unfold profileSegments. destruct (Qltb 0 (lip dims)); reflexivity. Qed.

Lemma profileSegments_sum (dims : ProfileDims) :
  sum (profileSegments dims)
  == web dims + 2 * flange dims + (if Qltb 0 (lip dims) then 2 * lip dims else 0).
Proof.
  unfold profileSegments, sum. destruct (Qltb 0 (lip dims)); cbn; ring.
Qed.

Section Profiles.
Context {host : Host}.

Lemma drawProfile_calls (Unit_Ref : string) (prof : PartGeometry.t) :
  GeneratedFile.content (drawProfile Unit_Ref prof)
  = fst (toString (run (profileCalls prof) new)).
Proof.
  unfold drawProfile, profileCalls, profileFlat, profileDims, profileSegments.
  cbv zeta.
  match goal with |- context [forEachBend ?l ?b ?i ?p] => destruct (forEachBend l b i p) end.
  reflexivity.
Qed.

(** X6: the drawing of a profile is that of a strip as long as the part
    and as wide as the web, the two flanges and, where the lip is positive,
    the two lips, less 4 for each bend: four bend lines with lips, two
    without. *)
Theorem profile_strip (Unit_Ref : string) (prof : PartGeometry.t) :
  let dims := profileDims prof in
  let calls := profileCalls prof in
  GeneratedFile.content (drawProfile Unit_Ref prof) = fst (toString (run calls new))
  /\ (exists rest,
        calls = AddPolyline [ (0, 0); (PartGeometry.Width_mm prof, 0);
                              (PartGeometry.Width_mm prof, flatLength (profileFlat prof));
                              (0, flatLength (profileFlat prof)) ] "CUT_OUTER" 7 true :: rest)
  /\ if Qltb 0 (lip dims)
     then flatLength (profileFlat prof) == web dims + 2 * flange dims + 2 * lip dims - 16
          /\ List.length (filter is_bend_line calls) = 4%nat
     else flatLength (profileFlat prof) == web dims + 2 * flange dims - 8
          /\ List.length (filter is_bend_line calls) = 2%nat.
Proof.
  cbv zeta. split; [apply drawProfile_calls|]. split; [eexists; reflexivity|].
  assert (Hlines : List.length (filter is_bend_line (profileCalls prof))
                   = (List.length (profileSegments (profileDims prof)) - 1)%nat).
  { unfold profileCalls. cbv zeta. rewrite !filter_app, !length_app, forEachBend_lines.
    unfold profileFlat, calculateFlatPattern. cbn [bendPositions].
    rewrite length_map, length_seq. cbn. lia. }
  assert (Hflat : flatLength (profileFlat prof)
                  == sum (profileSegments (profileDims prof))
                     - (ofNat (List.length (profileSegments (profileDims prof))) - 1) * 4).
  { unfold profileFlat, calculateFlatPattern. cbn [flatLength]. ring. }
  pose proof (profileSegments_sum (profileDims prof)) as Hsum.
  rewrite Hlines. rewrite profileSegments_length in *.
  destruct (Qltb 0 (lip (profileDims prof))); (split; [|reflexivity]);
    rewrite Hflat, Hsum.
  - change (ofNat 5) with 5. ring.
  - change (ofNat 3) with 3. ring.
Qed.


End Profiles.

End ProfileFacts.

(** ** Panels, holes and the list of files *)

Module PanelFacts.
Import JS SimpleDxfWriter Geometry TraySpec FrameSpec PartsSpec.
Import TrayFacts FrameFacts.
Local Open Scope list_scope.

Lemma toLowerCase_app (a b : string) :
  toLowerCase (a ++ b) = (toLowerCase a ++ toLowerCase b)%string.
Proof. induction a as [|c a IH]; simpl; [reflexivity | now rewrite IH]. Qed.

Lemma prefix_app (a b : string) : String.prefix a (a ++ b) = true.
Proof.
  induction a as [|c a IH]; simpl; [now destruct b|].
  destruct (ascii_dec c c) as [_|N]; [exact IH | congruence].
Qed.

Lemma includes_app (needle a b : string) : includes needle (a ++ needle ++ b) = true.
Proof.
  induction a as [|c a IH].
  - cbn [append]. destruct (needle ++ b)%string eqn:E; cbn [includes];
      rewrite <- E, prefix_app; reflexivity.
  - cbn [append includes]. rewrite IH. apply orb_true_r.
Qed.

(** X8: where the note of a panel holds the word flat, in whatever mix of
    upper and lower case, the panel is a flat plate. *)
Theorem isTray_flat_word (panel : PartGeometry.t) (pre word post : string) :
  PartGeometry.Notes panel = Some (pre ++ word ++ post)%string ->
  toLowerCase word = "flat" ->
  isTray panel = false.
Proof.
  intros Hn Hw. unfold isTray. rewrite Hn, !toLowerCase_app, Hw, includes_app. reflexivity.
Qed.

Lemma isTray_flat_word_witness :
  PartGeometry.Notes (PartGeometry.mk "Lid" PartGeometry.Panel "GI" 1 200 100
                        (Some "Cover, FLAT sheet") None)
  = Some ("Cover, " ++ "FLAT" ++ " sheet")%string
  /\ isTray (PartGeometry.mk "Lid" PartGeometry.Panel "GI" 1 200 100
               (Some "Cover, FLAT sheet") None) = false.
Proof.
  assert (H : PartGeometry.Notes (PartGeometry.mk "Lid" PartGeometry.Panel "GI" 1 200 100
                                    (Some "Cover, FLAT sheet") None)
              = Some ("Cover, " ++ "FLAT" ++ " sheet")%string) by reflexivity.
  split; [exact H|].
  apply (isTray_flat_word _ "Cover, " "FLAT" " sheet" H). reflexivity.
Defined.

Lemma holeCalls_callouts (hole : Hole.t) (idx : nat) {host : Host} :
  List.length (filter is_callout (holeCalls hole idx)) = 1%nat
  /\ List.length (filter is_cut (holeCalls hole idx)) = 1%nat.
Proof.
  unfold holeCalls. cbv zeta.
  destruct (Hole.Shape hole), (Qltb 10 (Hole.X hole)), (Qltb 10 (Hole.Y hole));
    split; reflexivity.
Qed.

Lemma forEachHole_counts {host : Host} (holes : list Hole.t) :
  forall idx,
    List.length (filter is_callout (forEachHole holes idx)) = List.length holes
    /\ List.length (filter is_cut (forEachHole holes idx)) = List.length holes.
Proof.
  induction holes as [|hole rest IH]; intros idx; [split; reflexivity|].
  cbn [forEachHole]. rewrite !filter_app, !length_app.
  destruct (holeCalls_callouts hole idx) as [H1 H2]. destruct (IH (S idx)) as [H3 H4].
  rewrite H1, H2, H3, H4. split; reflexivity.
Qed.

Lemma cuts_flat_map {A : Type} (f g : A -> call) (l : list A) :
  (forall a, is_cut (f a) = true) -> (forall a, is_cut (g a) = true) ->
  List.length (filter is_cut (flat_map (fun a => [f a; g a]) l)) = (2 * List.length l)%nat.
Proof.
  intros Hf Hg. induction l as [|a l IH]; [reflexivity|].
  cbn [flat_map app filter]. rewrite Hf, Hg. cbn [List.length]. rewrite IH. lia.
Qed.

Lemma trayCalls_cuts (W H : Q) :
  List.length (filter is_cut (trayCalls W H))
  = (2 * List.length (positions (flatSize W)) + 2 * List.length (positions (flatSize H)))%nat.
Proof.
  unfold trayCalls. cbv zeta.
  rewrite !filter_app, !length_app, rivetsX_positions, rivetsY_positions.
  rewrite !cuts_flat_map by reflexivity. cbn. lia.
Qed.

Lemma filter_flat_map_none {A : Type} (p : call -> bool) (f g : A -> call) (l : list A) :
  (forall a, p (f a) = false) -> (forall a, p (g a) = false) ->
  filter p (flat_map (fun a => [f a; g a]) l) = [].
Proof.
  intros Hf Hg. induction l as [|a l IH]; [reflexivity|].
  cbn [flat_map app filter]. now rewrite Hf, Hg.
Qed.

Lemma trayCalls_callouts (W H : Q) : filter is_callout (trayCalls W H) = [].
Proof.
  unfold trayCalls. cbv zeta.
  rewrite !filter_app, rivetsX_positions, rivetsY_positions.
  rewrite !filter_flat_map_none by reflexivity. reflexivity.
Qed.

Lemma trayCalls_bends (W H : Q) :
  filter is_bend_line (trayCalls W H)
  = [ AddLine notchSize notchSize notchSize (flatSize H - notchSize) "BEND" 2;
      AddLine (flatSize W - notchSize) notchSize (flatSize W - notchSize)
        (flatSize H - notchSize) "BEND" 2;
      AddLine notchSize notchSize (flatSize W - notchSize) notchSize "BEND" 2;
      AddLine notchSize (flatSize H - notchSize) (flatSize W - notchSize)
        (flatSize H - notchSize) "BEND" 2 ].
Proof.
  unfold trayCalls. cbv zeta.
  rewrite !filter_app, rivetsX_positions, rivetsY_positions.
  rewrite !filter_flat_map_none by reflexivity. reflexivity.
Qed.

Lemma holeCalls_bends {host : Host} (hole : Hole.t) (idx : nat) :
  filter is_bend_line (holeCalls hole idx) = [].
Proof.
  unfold holeCalls. cbv zeta.
  destruct (Hole.Shape hole), (Qltb 10 (Hole.X hole)), (Qltb 10 (Hole.Y hole)); reflexivity.
Qed.

Lemma forEachHole_bends {host : Host} (holes : list Hole.t) :
  forall idx, filter is_bend_line (forEachHole holes idx) = [].
Proof.
  induction holes as [|hole rest IH]; intros idx; [reflexivity|].
  cbn [forEachHole]. now rewrite filter_app, holeCalls_bends, IH.
Qed.

Section Panels.
Context {host : Host}.

Lemma drawPanel_calls (Unit_Ref : string) (panel : PartGeometry.t) :
  GeneratedFile.content (fst (drawPanel Unit_Ref panel))
  = fst (toString (run (panelCalls Unit_Ref panel) new)).
Proof.
  unfold drawPanel, panelCalls. cbv zeta.
  destruct (isTray panel); cbn [fst GeneratedFile.content PartGeometry.Holes
    PartGeometry.Part_Name PartGeometry.Material];
    destruct (PartGeometry.Holes panel); rewrite <- ?app_assoc; reflexivity.
Qed.

Lemma holes_remapped_length (panel : PartGeometry.t) :
  List.length match PartGeometry.Holes panel with
              | Some holes => if isTray panel then map remapHole holes else holes
              | None => []
              end
  = List.length (holesOf panel).
Proof.
  unfold holesOf. destruct (PartGeometry.Holes panel); [|reflexivity].
  destruct (isTray panel); [apply length_map | reflexivity].
Qed.

(** X9: a tray is drawn with four bend lines, one notch size inside each
    edge of the blank, so that opposite bend lines are the finished size
    less one bend deduction apart; a flat plate is drawn with none. *)
Theorem panel_bends (Unit_Ref : string) (panel : PartGeometry.t) :
  let calls := panelCalls Unit_Ref panel in
  let W := PartGeometry.Width_mm panel in
  let H := PartGeometry.Height_mm panel in
  GeneratedFile.content (fst (drawPanel Unit_Ref panel)) = fst (toString (run calls new))
  /\ filter is_bend_line calls
     = (if isTray panel
        then [ AddLine notchSize notchSize notchSize (flatSize H - notchSize) "BEND" 2;
               AddLine (flatSize W - notchSize) notchSize (flatSize W - notchSize)
                 (flatSize H - notchSize) "BEND" 2;
               AddLine notchSize notchSize (flatSize W - notchSize) notchSize "BEND" 2;
               AddLine notchSize (flatSize H - notchSize) (flatSize W - notchSize)
                 (flatSize H - notchSize) "BEND" 2 ]
        else [])
  /\ (flatSize W - notchSize - notchSize == W - BEND_DEDUCTION)%Q
  /\ (flatSize H - notchSize - notchSize == H - BEND_DEDUCTION)%Q.
Proof.
  cbv zeta. split; [apply drawPanel_calls|]. split.
  - unfold panelCalls. cbv zeta. rewrite !filter_app, forEachHole_bends.
    destruct (isTray panel); [rewrite trayCalls_bends|]; reflexivity.
  - unfold flatSize, notchSize, FLANGE, BEND_DEDUCTION. split; field.
Qed.

(** X10: every hole of a panel gets one cut of the inner layer and one
    callout. A flat plate has no other inner cut; a tray has, besides, the
    two circles at each place of the rows along its flanges. *)
Theorem panel_holes (Unit_Ref : string) (panel : PartGeometry.t) :
  let calls := panelCalls Unit_Ref panel in
  let W := PartGeometry.Width_mm panel in
  let H := PartGeometry.Height_mm panel in
  GeneratedFile.content (fst (drawPanel Unit_Ref panel)) = fst (toString (run calls new))
  /\ List.length (filter is_callout calls) = List.length (holesOf panel)
  /\ List.length (filter is_cut calls)
     = (List.length (holesOf panel)
        + if isTray panel
          then 2 * List.length (positions (flatSize W))
               + 2 * List.length (positions (flatSize H))
          else 0)%nat.
Proof.
  cbv zeta. split; [apply drawPanel_calls|].
  unfold panelCalls. cbv zeta. rewrite !filter_app, !length_app.
  match goal with |- context [forEachHole ?hs 0] =>
    destruct (forEachHole_counts hs 0) as [Hc Hk] end.
  rewrite Hc, Hk, holes_remapped_length.
  destruct (isTray panel).
  - rewrite trayCalls_callouts, trayCalls_cuts. cbn. split; lia.
  - cbn. split; lia.
Qed.

(** X11: a hole that names no height, or the height 0, is drawn as the
    hole of the same place whose height is its width: a square, where it
    is a rectangle. *)
Theorem hole_without_height (hole : Hole.t) (idx : nat) :
  no_height hole = true ->
  holeCalls hole idx
  = holeCalls (Hole.mk (Hole.Shape hole) (Hole.X hole) (Hole.Y hole) (Hole.W_or_Dia hole)
                 (Some (Hole.W_or_Dia hole))) idx.
Proof.
  unfold no_height, holeCalls, heightOr. cbv zeta.
  cbn [Hole.Shape Hole.X Hole.Y Hole.W_or_Dia Hole.H].
  intros Hn. destruct (Hole.H hole) as [h|]; [rewrite Hn|];
    destruct (Qeq_bool (Hole.W_or_Dia hole) 0); reflexivity.
Qed.

End Panels.

Lemma hole_without_height_witness :
  no_height (Hole.mk Hole.Rect 50 40 30 None) = true
  /\ holeCalls (host := Ref.host) (Hole.mk Hole.Rect 50 40 30 None) 0
     = holeCalls (host := Ref.host) (Hole.mk Hole.Rect 50 40 30 (Some 30)) 0.
Proof.
  assert (H : no_height (Hole.mk Hole.Rect 50 40 30 None) = true) by reflexivity.
  split; [exact H|].
  apply (hole_without_height (host := Ref.host) (Hole.mk Hole.Rect 50 40 30 None) 0 H).
Defined.

(** *** The files of a call *)

Section Files.
Context {host : Host}.

Lemma drawPanel_snd (Unit_Ref : string) (panel : PartGeometry.t) :
  PartGeometry.Type_ panel = PartGeometry.Panel ->
  snd (drawPanel Unit_Ref panel) = partAfter panel.
Proof.
  intros Hty. unfold drawPanel, partAfter, is_tray_panel. rewrite Hty.
  destruct (isTray panel); reflexivity.
Qed.

Lemma drawPanel_name (Unit_Ref : string) (panel : PartGeometry.t) :
  PartGeometry.Type_ panel = PartGeometry.Panel ->
  GeneratedFile.name (fst (drawPanel Unit_Ref panel)) = drawingName Unit_Ref panel
  /\ GeneratedFile.type_ (fst (drawPanel Unit_Ref panel)) = GeneratedFile.dxf.
Proof.
  intros Hty. unfold drawPanel, drawingName. rewrite Hty.
  destruct (isTray panel); split; reflexivity.
Qed.

Lemma forEachPanel_snd (Unit_Ref : string) (parts : list PartGeometry.t) :
  snd (forEachPanel Unit_Ref parts) = map partAfter parts.
Proof.
  induction parts as [|part parts IH]; [reflexivity|].
  cbn [forEachPanel map].
  destruct (forEachPanel Unit_Ref parts) as [files rest']. cbn [snd] in IH. subst rest'.
  destruct (PartGeometry.Type_ part) eqn:Hty.
  - pose proof (drawPanel_snd Unit_Ref part Hty) as Hs.
    destruct (drawPanel Unit_Ref part) as [file part']. cbn [snd] in *. now subst part'.
  - cbn [snd]. unfold partAfter, is_tray_panel. now rewrite Hty.
Qed.

Lemma forEachPanel_fst (Unit_Ref : string) (parts : list PartGeometry.t) :
  fst (forEachPanel Unit_Ref parts)
  = map (fun p => fst (drawPanel Unit_Ref p)) (filter isPanel parts).
Proof.
  induction parts as [|part parts IH]; [reflexivity|].
  cbn [forEachPanel filter]. unfold isPanel at 1.
  destruct (forEachPanel Unit_Ref parts) as [files rest']. cbn [fst] in IH. subst files.
  destruct (PartGeometry.Type_ part).
  - cbn [map]. destruct (drawPanel Unit_Ref part) as [file part']. reflexivity.
  - reflexivity.
Qed.

Lemma partAfter_profiles (parts : list PartGeometry.t) :
  filter isProfile (map partAfter parts) = filter isProfile parts.
Proof.
  induction parts as [|part parts IH]; [reflexivity|].
  cbn [map filter]. rewrite IH.
  unfold partAfter, is_tray_panel, isProfile.
  destruct (PartGeometry.Type_ part) eqn:Hty.
  - destruct (isTray part); cbn [PartGeometry.Type_]; rewrite ?Hty; reflexivity.
  - rewrite Hty. reflexivity.
Qed.

Lemma generateFabricationFiles_fst (data : ExtractedData.t) :
  let Unit_Ref := ExtractedData.Unit_Ref data in
  let parts := ExtractedData.Parts_List data in
  exists csvFile,
    fst (generateFabricationFiles data)
    = csvFile :: map (fun p => fst (drawPanel Unit_Ref p)) (filter isPanel parts)
              ++ map (drawProfile Unit_Ref) (filter isProfile parts)
    /\ GeneratedFile.name csvFile = (Unit_Ref ++ "_Production_List.csv")%string
    /\ GeneratedFile.type_ csvFile = GeneratedFile.csv.
Proof.
  cbv zeta. unfold generateFabricationFiles. cbv zeta.
  pose proof (forEachPanel_fst (ExtractedData.Unit_Ref data) (ExtractedData.Parts_List data))
    as Hf.
  pose proof (forEachPanel_snd (ExtractedData.Unit_Ref data) (ExtractedData.Parts_List data))
    as Hs.
  destruct (forEachPanel _ _) as [panelFiles parts]. cbn [fst snd] in *. subst.
  rewrite partAfter_profiles. eexists. split; [reflexivity|]. split; reflexivity.
Qed.

Lemma generateFabricationFiles_snd (data : ExtractedData.t) :
  ExtractedData.Parts_List (snd (generateFabricationFiles data))
  = map partAfter (ExtractedData.Parts_List data)
  /\ ExtractedData.Unit_Ref (snd (generateFabricationFiles data)) = ExtractedData.Unit_Ref data.
Proof.
  unfold generateFabricationFiles. cbv zeta.
  pose proof (forEachPanel_snd (ExtractedData.Unit_Ref data) (ExtractedData.Parts_List data))
    as Hs.
  destruct (forEachPanel _ _) as [panelFiles parts]. cbn [fst snd] in *. subst.
  split; reflexivity.
Qed.

Lemma isPanel_names (Unit_Ref : string) (parts : list PartGeometry.t) :
  map GeneratedFile.name (map (fun p => fst (drawPanel Unit_Ref p)) (filter isPanel parts))
  = map (drawingName Unit_Ref) (filter isPanel parts)
  /\ map GeneratedFile.type_ (map (fun p => fst (drawPanel Unit_Ref p)) (filter isPanel parts))
     = map (fun _ => GeneratedFile.dxf) (filter isPanel parts).
Proof.
  induction parts as [|part parts [IH1 IH2]]; [split; reflexivity|].
  cbn [filter]. destruct (isPanel part) eqn:E; [|split; assumption].
  assert (Hty : PartGeometry.Type_ part = PartGeometry.Panel)
    by (unfold isPanel in E; destruct (PartGeometry.Type_ part); congruence).
  cbn [map]. destruct (drawPanel_name Unit_Ref part Hty) as [Hn Ht].
  rewrite Hn, Ht, IH1, IH2. split; reflexivity.
Qed.

Lemma isProfile_names (Unit_Ref : string) (parts : list PartGeometry.t) :
  map GeneratedFile.name (map (drawProfile Unit_Ref) (filter isProfile parts))
  = map (drawingName Unit_Ref) (filter isProfile parts)
  /\ map GeneratedFile.type_ (map (drawProfile Unit_Ref) (filter isProfile parts))
     = map (fun _ => GeneratedFile.dxf) (filter isProfile parts).
Proof.
  induction parts as [|part parts [IH1 IH2]]; [split; reflexivity|].
  cbn [filter]. destruct (isProfile part) eqn:E; [|split; assumption].
  assert (Hty : PartGeometry.Type_ part = PartGeometry.Profile)
    by (unfold isProfile in E; destruct (PartGeometry.Type_ part); congruence).
  cbn [map]. rewrite IH1, IH2. unfold drawingName at 2. rewrite Hty.
  split; f_equal.
  - unfold drawProfile. cbv zeta.
    match goal with |- context [forEachBend ?l ?b ?i ?p] => destruct (forEachBend l b i p) end.
    reflexivity.
  - unfold drawProfile. cbv zeta.
    match goal with |- context [forEachBend ?l ?b ?i ?p] => destruct (forEachBend l b i p) end.
    reflexivity.
Qed.

Lemma map_const_repeat {A B : Type} (b : B) (l : list A) :
  map (fun _ => b) l = repeat b (List.length l).
Proof. induction l as [|a l IH]; cbn; [reflexivity | now rewrite IH]. Qed.

Lemma filter_types_length (parts : list PartGeometry.t) :
  (List.length (filter isPanel parts) + List.length (filter isProfile parts))%nat
  = List.length parts.
Proof.
  induction parts as [|part parts IH]; [reflexivity|].
  cbn [filter]. unfold isPanel at 1, isProfile at 1.
  destruct (PartGeometry.Type_ part); cbn [List.length]; lia.
Qed.

(** X12: a call returns the list of parts as a CSV file, then one drawing for
    each panel in the order of the list, then one for each profile in that
    order: one file more than there are parts, each drawing named after
    the unit and its part. *)
Theorem generateFabricationFiles_files (data : ExtractedData.t) :
  let Unit_Ref := ExtractedData.Unit_Ref data in
  let parts := ExtractedData.Parts_List data in
  let files := fst (generateFabricationFiles data) in
  map GeneratedFile.name files
  = (Unit_Ref ++ "_Production_List.csv")%string
    :: map (drawingName Unit_Ref) (filter isPanel parts ++ filter isProfile parts)
  /\ map GeneratedFile.type_ files
     = GeneratedFile.csv :: repeat GeneratedFile.dxf (List.length parts)
  /\ List.length files = S (List.length parts).
Proof.
  cbv zeta. destruct (generateFabricationFiles_fst data) as (csvFile & Hf & Hn & Ht).
  cbv zeta in Hf. rewrite Hf.
  destruct (isPanel_names (ExtractedData.Unit_Ref data) (ExtractedData.Parts_List data))
    as [Hpn Hpt].
  destruct (isProfile_names (ExtractedData.Unit_Ref data) (ExtractedData.Parts_List data))
    as [Hqn Hqt].
  cbn [map List.length]. rewrite !map_app, Hn, Ht, Hpn, Hpt, Hqn, Hqt.
  rewrite length_app, !length_map, filter_types_length.
  split; [reflexivity|]. split; [|reflexivity].
  f_equal. rewrite <- (filter_types_length (ExtractedData.Parts_List data)).
  now rewrite repeat_app, !map_const_repeat.
Qed.

Lemma is_tray_panel_after (part : PartGeometry.t) :
  is_tray_panel (partAfter part) = is_tray_panel part.
Proof.
  unfold partAfter. destruct (is_tray_panel part) eqn:E; [|exact E].
  unfold is_tray_panel, isTray in *. cbn [PartGeometry.Type_ PartGeometry.Notes]. exact E.
Qed.

Lemma Forall2_remap_twice (holes : list Hole.t) :
  Forall2 hole_moved_twice holes (map remapHole (map remapHole holes)).
Proof.
  induction holes as [|h holes IH]; cbn [map]; constructor; [|exact IH].
  unfold hole_moved_twice, remapHole. cbn [Hole.Shape Hole.X Hole.Y Hole.W_or_Dia Hole.H].
  split; [reflexivity|]. split; [ring|]. split; [ring|]. split; reflexivity.
Qed.

Lemma partAfter_other (part : PartGeometry.t) :
  is_tray_panel part = false -> partAfter part = part.
Proof. intros E. unfold partAfter. now rewrite E. Qed.

Lemma partAfter_tray (part : PartGeometry.t) :
  is_tray_panel part = true ->
  PartGeometry.Part_Name (partAfter part) = PartGeometry.Part_Name part
  /\ PartGeometry.Type_ (partAfter part) = PartGeometry.Type_ part
  /\ PartGeometry.Notes (partAfter part) = PartGeometry.Notes part
  /\ PartGeometry.Holes (partAfter part)
     = match PartGeometry.Holes part with
       | Some holes => Some (map remapHole holes)
       | None => None
       end.
Proof.
  intros E. unfold partAfter. rewrite E.
  split; [reflexivity|]. split; [reflexivity|]. split; reflexivity.
Qed.

Lemma partAfter_twice (part : PartGeometry.t) :
  part_after_twice part (partAfter (partAfter part)).
Proof.
  unfold part_after_twice.
  pose proof (is_tray_panel_after part) as E2.
  destruct (is_tray_panel part) eqn:E.
  - destruct (partAfter_tray _ E2) as (N2 & T2 & O2 & H2).
    destruct (partAfter_tray _ E) as (N1 & T1 & O1 & H1).
    rewrite N2, T2, O2, H2, N1, T1, O1, H1.
    split; [reflexivity|]. split; [reflexivity|]. split; [reflexivity|].
    destruct (PartGeometry.Holes part); cbn; [apply Forall2_remap_twice | exact I].
  - rewrite !(partAfter_other part E).
    split; [reflexivity|]. split; [reflexivity|]. split; reflexivity.
Qed.

(** X13: a second call on the object a first call has left moves the holes
    of every tray panel once more: they end two notch sizes, 68.5, from
    where the input had them. *)
Theorem generateFabricationFiles_twice (data : ExtractedData.t) :
  let data' := snd (generateFabricationFiles data) in
  let data'' := snd (generateFabricationFiles data') in
  Forall2 part_after_twice (ExtractedData.Parts_List data) (ExtractedData.Parts_List data'')
  /\ 2 * notchSize == 68.5.
Proof.
  cbv zeta.
  destruct (generateFabricationFiles_snd (snd (generateFabricationFiles data))) as [H2 _].
  destruct (generateFabricationFiles_snd data) as [H1 _].
  rewrite H2, H1. split; [|reflexivity].
  generalize (ExtractedData.Parts_List data) as parts.
  induction parts as [|part parts IH]; cbn [map]; constructor;
    [apply partAfter_twice | exact IH].
Qed.

End Files.

End PanelFacts.

(** ** The writer as a whole *)

Module DrawingFacts.
Import JS SimpleDxfWriter Parser ParserSpec DocSpec RoundTripSpec DrawingSpec.
Import ParserFacts EvenFacts DocFacts StringFacts RoundTripFacts.
Local Open Scope list_scope.

Section Drawings.
Context {host : Host}.

Lemma exec_expand (k : call) (c : content) : exec c k = run (expand k) c.
Proof.
  destruct k; try reflexivity.
  - cbn [exec expand]. unfold addDimension. cbv zeta.
    destruct (Qltb (dimDist x1 y1 x2 y2) (1 # 10)); reflexivity.
Qed.

Lemma run_cat (ks ks' : list call) (c : content) : run (ks ++ ks') c = run ks' (run ks c).
Proof. unfold run. apply fold_left_app. Qed.

Lemma run_expand (ks : list call) : forall c, run ks c = run (flat_map expand ks) c.
Proof.
  induction ks as [|k ks IH]; intros c; [reflexivity|].
  cbn [flat_map]. rewrite run_cat, <- exec_expand, <- IH. reflexivity.
Qed.

(** The lines a call of the four record methods appends. *)
Lemma exec_simple (k : call) (c : content) :
  expand k = [k] -> exec c k = c ++ exec [] k.
Proof.
  destruct k; intros H; cbn [exec]; try reflexivity.
  - unfold addPolyline. rewrite !fold_addVertex. cbn [app]. now rewrite <- !app_assoc.
  - exfalso. cbn [expand] in H. destruct (Qltb _ _); [discriminate|].
    cbv zeta in H. inversion H.
  - exfalso. cbn [expand] in H. inversion H.
Qed.

Lemma expand_simple (k k' : call) : In k' (expand k) -> expand k' = [k'].
Proof.
  destruct k; cbn [expand]; cbv zeta.
  - intros [<-|[]]. reflexivity.
  - intros [<-|[]]. reflexivity.
  - intros [<-|[]]. reflexivity.
  - intros [<-|[]]. reflexivity.
  - destruct (Qltb _ _); [intros []|].
    intros H. repeat (destruct H as [<-|H]; [reflexivity|]). destruct H.
  - intros H. repeat (destruct H as [<-|H]; [reflexivity|]). destruct H.
Qed.

Lemma run_simple (ks : list call) :
  forall c, (forall k, In k ks -> expand k = [k]) -> run ks c = c ++ run ks [].
Proof.
  induction ks as [|k ks IH]; intros c H.
  - cbn. now rewrite app_nil_r.
  - change (run (k :: ks) c) with (run ks (exec c k)).
    change (run (k :: ks) []) with (run ks (exec [] k)).
    rewrite (IH (exec c k)), (IH (exec [] k)) by (intros; apply H; now right).
    rewrite (exec_simple k c) by (apply H; now left). now rewrite app_assoc.
Qed.

Lemma expand_all_simple (ks : list call) (k : call) :
  In k (flat_map expand ks) -> expand k = [k].
Proof.
  intros H. apply in_flat_map in H. destruct H as (k0 & _ & Hk). eapply expand_simple, Hk.
Qed.

(** X14: the writer only appends: a sequence of calls leaves the lines already
    written as they are, and what it adds does not depend on them. *)
Theorem run_appends (ks : list call) (c : content) : run ks c = c ++ run ks [].
Proof.
  rewrite (run_expand ks c), (run_expand ks []).
  apply run_simple. intros k. apply expand_all_simple.
Qed.

Lemma exec_even (k : call) :
  expand k = [k] -> Nat.even (List.length (exec [] k)) = true.
Proof.
  destruct k; intros H; cbn [exec]; try reflexivity.
  - unfold addPolyline. rewrite fold_addVertex. cbn [app List.length Nat.even].
    rewrite length_app, Nat.even_add. cbn [List.length Nat.even].
    induction points as [|p points IH]; [reflexivity|].
    cbn [flat_map]. rewrite length_app. cbn [addVertex app List.length Nat.add Nat.even].
    apply IH. reflexivity.
  - exfalso. cbn [expand] in H. destruct (Qltb _ _); [discriminate|].
    cbv zeta in H. inversion H.
Qed.

Lemma run_even (ks : list call) :
  (forall k, In k ks -> expand k = [k]) -> Nat.even (List.length (run ks [])) = true.
Proof.
  induction ks as [|k ks IH]; intros H; [reflexivity|].
  change (run (k :: ks) []) with (run ks (exec [] k)).
  rewrite run_simple by (intros; apply H; now right).
  rewrite length_app, Nat.even_add, exec_even, IH; [reflexivity| |].
  - intros; apply H; now right.
  - apply H; now left.
Qed.

Lemma lines_even (ks : list call) :
  Nat.even (List.length (run ks new ++ trailer)) = true.
Proof.
  rewrite run_appends, run_expand, !length_app, !Nat.even_add.
  rewrite run_even by (intros k; apply expand_all_simple). reflexivity.
Qed.

(** X15: the parser reads every document of the writer to its end: whatever
    calls were made, when no line of the document holds a line break
    [parseDxf] returns a result on the text of [toString]. *)
Theorem parseDxf_reads_writer (ks : list call) :
  forallb no_nl (run ks new) = true ->
  exists r, parseDxf (fst (toString (run ks new))) = Ok r.
Proof.
  intros Hnl. unfold toString, parseDxf, parseLines. cbn [fst].
  rewrite split_join.
  - destruct (mainLoop_even (S (List.length (map trim (run ks new ++ trailer))))
                (map trim (run ks new ++ trailer)) false initial) as (st & Hst).
    + rewrite length_map. apply lines_even.
    + lia.
    + rewrite Hst. eexists. reflexivity.
  - destruct (run ks new); discriminate.
  - rewrite forallb_app, Hnl. reflexivity.
Qed.


End Drawings.

Lemma parseDxf_reads_writer_witness :
  let ks := [ AddCircle 10 20 (5 # 2) "CUT_INNER" 1; AddCallout 10 20 "%%C5.0" 0 15 ] in
  forallb no_nl (run (host := Ref.host) ks new) = true
  /\ exists r, parseDxf (fst (toString (run (host := Ref.host) ks new))) = Ok r.
Proof.
  cbv zeta.
  assert (H : forallb no_nl
                (run (host := Ref.host)
                   [ AddCircle 10 20 (5 # 2) "CUT_INNER" 1; AddCallout 10 20 "%%C5.0" 0 15 ]
                   new) = true) by (vm_compute; reflexivity).
  split; [exact H|].
  apply (parseDxf_reads_writer (host := Ref.host) _ H).
Defined.


End DrawingFacts.

(** ** More on the parser: bounds, sections, polylines *)

Module BoundsFacts.
Import JS SimpleDxfWriter Parser ParserSpec DocSpec BoundsSpec.
Import WriterFacts ParserFacts DocFacts.
Local Open Scope list_scope.

(** *** The bounds enclose the points *)

Ltac order :=
  repeat match goal with
         | H : Qltb _ _ = true |- _ => apply Qltb_lt in H
         | H : Qltb _ _ = false |- _ => apply Qltb_ge in H
         end.

Ltac compare_bounds :=
  repeat (match goal with
          | |- context [js_ltb (Fin ?a) (Fin ?b)] =>
              change (js_ltb (Fin a) (Fin b)) with (Qltb a b); destruct (Qltb a b) eqn:?
          end; cbn [minX minY maxX maxY]).

Lemma encloses_first (x y : Q) :
  encloses (updateBounds (Fin x) (Fin y) (bounds initial)) [(Fin x, Fin y)].
Proof.
  exists x, y, x, y. split; [reflexivity|]. split.
  - intros x' y' [H|[]]. inversion H; subst. repeat split; apply Qle_refl.
  - cbn. auto.
Qed.

Lemma encloses_step (b : DxfBounds) (seen : list (jsnum * jsnum)) (x y : Q) :
  encloses b seen ->
  encloses (updateBounds (Fin x) (Fin y) b) (seen ++ [(Fin x, Fin y)]).
Proof.
  intros (x0 & y0 & x1 & y1 & -> & Hin & Hx0 & Hy0 & Hx1 & Hy1).
  unfold encloses, updateBounds, js_gtb. cbv zeta. cbn [minX minY maxX maxY].
  compare_bounds; order;
    (do 4 eexists; split; [reflexivity|]; split;
     [ intros px py Hi; apply in_app_or in Hi; destruct Hi as [Hi|[Hi|[]]];
       [ destruct (Hin _ _ Hi) as [[? ?] [? ?]] | inversion Hi; subst ];
       repeat split; lra
     | rewrite !map_app; repeat split; apply in_or_app;
       solve [left; assumption | right; left; reflexivity] ]).
Qed.

Lemma encloses_grow (ps : list (jsnum * jsnum)) :
  forall b seen,
    encloses b seen -> forallb finite ps = true -> encloses (grow b ps) (seen ++ ps).
Proof.
  induction ps as [|p ps IH]; intros b seen Hb Hps.
  - now rewrite app_nil_r.
  - cbn [forallb] in Hps. apply andb_true_iff in Hps. destruct Hps as [Hp Hps].
    destruct p as [[| | |x] [| | |y]]; try discriminate Hp.
    change (grow b ((Fin x, Fin y) :: ps))
      with (grow (updateBounds (Fin x) (Fin y) b) ps).
    replace (seen ++ (Fin x, Fin y) :: ps) with ((seen ++ [(Fin x, Fin y)]) ++ ps)
      by (now rewrite <- app_assoc).
    apply IH; [apply encloses_step, Hb | exact Hps].
Qed.

Lemma encloses_all (ps : list (jsnum * jsnum)) :
  ps <> [] -> forallb finite ps = true -> encloses (grow (bounds initial) ps) ps.
Proof.
  destruct ps as [|p ps]; [congruence|]. intros _ Hps.
  cbn [forallb] in Hps. apply andb_true_iff in Hps. destruct Hps as [Hp Hps].
  destruct p as [[| | |x] [| | |y]]; try discriminate Hp.
  change (grow (bounds initial) ((Fin x, Fin y) :: ps))
    with (grow (updateBounds (Fin x) (Fin y) (bounds initial)) ps).
  change ((Fin x, Fin y) :: ps) with ([(Fin x, Fin y)] ++ ps).
  apply encloses_grow; [apply encloses_first | exact Hps].
Qed.

Lemma finish_encloses (st : pstate) :
  accounted st ->
  flat_map contributes (entities st) <> [] ->
  forallb finite (flat_map contributes (entities st)) = true ->
  encloses (bounds (finish st)) (flat_map contributes (entities st)).
Proof.
  intros Hacc Hne Hfin.
  pose proof (encloses_all _ Hne Hfin) as Hb. unfold accounted in Hacc. rewrite <- Hacc in Hb.
  destruct Hb as (x0 & y0 & x1 & y1 & Hb & Hrest).
  assert (Hst : finish st = st) by (unfold finish; rewrite Hb; reflexivity).
  rewrite Hst. exists x0, y0, x1, y1. split; [exact Hb | exact Hrest].
Qed.

(** X18: when the entities of a result have passed points to the bounds,
    all of them finite, the bounds returned are the smallest box around
    those points. *)
Theorem parseDxf_bounds (content : string) (r : pstate) :
  parseDxf content = Ok r ->
  flat_map contributes (entities r) <> [] ->
  forallb finite (flat_map contributes (entities r)) = true ->
  encloses (bounds r) (flat_map contributes (entities r)).
Proof.
  unfold parseDxf, parseLines. intros H Hne Hfin.
  destruct (mainLoop _ _ _ _) as [st| |] eqn:E; try discriminate.
  inversion H; subst r. clear H. rewrite finish_entities in *.
  apply finish_encloses; [|exact Hne | exact Hfin].
  eapply mainLoop_accounted; [|exact E]. reflexivity.
Qed.

Lemma parseDxf_bounds_witness :
  exists r,
    parseDxf line_and_circle = Ok r
    /\ encloses (bounds r) (flat_map contributes (entities r)).
Proof.
  pose (r := match parseDxf line_and_circle with Ok r => r | _ => initial end).
  assert (H : parseDxf line_and_circle = Ok r) by (vm_compute; reflexivity).
  assert (Hne : flat_map contributes (entities r) <> []) by (vm_compute; discriminate).
  assert (Hfin : forallb finite (flat_map contributes (entities r)) = true)
    by (vm_compute; reflexivity).
  exists r. split; [exact H|].
  apply (parseDxf_bounds line_and_circle r H Hne Hfin).
Defined.

(** X17 holds on the text of a drawing with one line. *)
Lemma parseDxf_even_witness :
  let content := join_nl [ "0"; "SECTION"; "2"; "ENTITIES";
                           "0"; "LINE"; "10"; "5"; "20"; "3"; "11"; "40"; "21"; "12";
                           "0"; "ENDSEC"; "0"; "EOF" ] in
  Nat.even (List.length (split_nl content)) = true /\ exists r, parseDxf content = Ok r.
Proof.
  cbv zeta.
  assert (H : Nat.even (List.length
                (split_nl (join_nl [ "0"; "SECTION"; "2"; "ENTITIES";
                                     "0"; "LINE"; "10"; "5"; "20"; "3"; "11"; "40"; "21"; "12";
                                     "0"; "ENDSEC"; "0"; "EOF" ]))) = true) by reflexivity.
  split; [exact H|]. apply (EvenFacts.parseDxf_even _ H).
Defined.

(** *** Outside the entities section *)







(** *** After the end of the section *)




(** *** A polyline that is not closed by SEQEND *)






End BoundsFacts.

(** ** The preview *)

Module PreviewFacts.
Import JS Parser ParserSpec BoundsSpec Preview PreviewSpec.
Import WriterFacts ParserFacts DocFacts BoundsFacts.
Local Open Scope list_scope.

Lemma Qmax_cases (w h : Q) :
  exists m, (if Qltb w h then h else w) = m /\ (w <= m)%Q /\ (h <= m)%Q /\ (m == w \/ m == h)%Q.
Proof.
  destruct (Qltb w h) eqn:E; BoundsFacts.order.
  - exists h. split; [reflexivity|]. split; [lra|]. split; [lra|]. right. reflexivity.
  - exists w. split; [reflexivity|]. split; [lra|]. split; [lra|]. left. reflexivity.
Qed.



Lemma in_view_inside (x0 y0 x1 y1 x y yy : Q) :
  (x0 <= x1)%Q -> (y0 <= y1)%Q ->
  (x0 <= x /\ x <= x1)%Q -> (y0 <= y /\ y <= y1)%Q -> (yy == - y)%Q ->
  in_view (viewBoxNumbers (mkBounds (Fin x0) (Fin y0) (Fin x1) (Fin y1))) (Fin x, Fin yy).
Proof.
  intros Hx Hy [Hx0 Hx1] [Hy0 Hy1] Hyy.
  unfold viewBoxNumbers, padding, width, height, js_max, js_sub, js_neg, js_add, js_mul.
  cbn [minX minY maxX maxY].
  change (js_ltb (Fin (x1 + - x0)) (Fin (y1 + - y0)))
    with (Qltb (x1 + - x0) (y1 + - y0)).
  destruct (Qmax_cases (x1 + - x0) (y1 + - y0)) as (m & Hm & Hw & Hh & Hor).
  assert (E : (if Qltb (x1 + - x0) (y1 + - y0) then Fin (y1 + - y0) else Fin (x1 + - x0))
              = Fin (if Qltb (x1 + - x0) (y1 + - y0) then y1 + - y0 else x1 + - x0))
    by (destruct (Qltb _ _); reflexivity).
  rewrite E, Hm. cbn [in_view]. repeat split; lra.
Qed.

(** The coordinates an element reaches are those its entity passed to the
    bounds, with [y] negated. *)
Lemma reach_contributed (b : DxfBounds) (e : DxfEntity) (p : jsnum * jsnum) :
  forallb finite (contributes e) = true ->
  In p (reach (render b e)) ->
  exists x y yy,
    p = (Fin x, Fin yy) /\ (yy == - y)%Q
    /\ (exists y', In (Fin x, Fin y') (contributes e))
    /\ (exists x', In (Fin x', Fin y) (contributes e)).
Proof.
  destruct e as [layer color p0 p1|layer color center radius|layer color x y h t
                |layer color points closed]; cbn [render contributes reach].
  - destruct p0 as [[| | |a0] [| | |b0]]; try discriminate;
      destruct p1 as [[| | |a1] [| | |b1]]; try discriminate.
    intros _ [<-|[<-|[]]]; cbn [fst snd js_neg].
    + exists a0, b0, (- b0)%Q. split; [reflexivity|]. split; [reflexivity|].
      split; [exists b0|exists a0]; now left.
    + exists a1, b1, (- b1)%Q. split; [reflexivity|]. split; [reflexivity|].
      split; [exists b1|exists a1]; right; now left.
  - destruct center as [[| | |cx] [| | |cy]], radius as [| | |r]; try discriminate.
    intros _. cbn [truthy]. destruct (negb (Qeq_bool r 0)); cbn [reach]; [|intros []].
    cbn [fst snd js_sub js_add js_neg].
    intros [<-|[<-|[]]].
    + exists (cx + - r)%Q, (cy + r)%Q, (- cy + - r)%Q.
      split; [reflexivity|]. split; [ring|].
      split; [exists (cy + - r)%Q; now left | exists (cx + r)%Q; right; now left].
    + exists (cx + r)%Q, (cy + - r)%Q, (- cy + r)%Q.
      split; [reflexivity|]. split; [ring|].
      split; [exists (cy + r)%Q; right; now left | exists (cx + - r)%Q; now left].
  - destruct t as [[|c s]|]; intros _ [].
  - intros Hfin Hin. apply in_map_iff in Hin. destruct Hin as ([px py] & <- & Hin).
    rewrite forallb_forall in Hfin. pose proof (Hfin _ Hin) as Hp.
    destruct px as [| | |a], py as [| | |b0]; try discriminate.
    exists a, b0, (- b0)%Q. cbn [fst snd js_neg]. split; [reflexivity|]. split; [reflexivity|].
    split; [exists b0 | exists a]; exact Hin.
Qed.

Lemma finite_point (ps : list (jsnum * jsnum)) (x : Q) :
  forallb finite ps = true -> In (Fin x) (map fst ps) -> exists y, In (Fin x, Fin y) ps.
Proof.
  intros Hfin Hin. apply in_map_iff in Hin. destruct Hin as ([px py] & Hp & Hin).
  cbn [fst] in Hp. subst px. rewrite forallb_forall in Hfin. pose proof (Hfin _ Hin) as H.
  destruct py as [| | |y]; try discriminate. now exists y.
Qed.

Lemma finite_point_y (ps : list (jsnum * jsnum)) (y : Q) :
  forallb finite ps = true -> In (Fin y) (map snd ps) -> exists x, In (Fin x, Fin y) ps.
Proof.
  intros Hfin Hin. apply in_map_iff in Hin. destruct Hin as ([px py] & Hp & Hin).
  cbn [snd] in Hp. subst py. rewrite forallb_forall in Hfin. pose proof (Hfin _ Hin) as H.
  destruct px as [| | |x]; try discriminate. now exists x.
Qed.

(** X23: of a drawing whose entities have only finite coordinates the
    preview shows every line, polygon and circle within its [viewBox]: the
    ends of the lines, the corners of the polygons and the square around
    each circle lie inside the rectangle. *)
Theorem preview_in_view (content : string) (r : pstate) :
  parseDxf content = Ok r ->
  flat_map contributes (entities r) <> [] ->
  forallb finite (flat_map contributes (entities r)) = true ->
  forall e p,
    In e (entities r) -> In p (reach (render (bounds r) e)) ->
    in_view (fst (DxfPreview r)) p.
Proof.
  intros H Hne Hfin e p He Hp.
  assert (Henc : encloses (bounds r) (flat_map contributes (entities r))).
  { unfold parseDxf, parseLines in H.
    destruct (mainLoop _ _ _ _) as [st| |] eqn:E; try discriminate.
    inversion H; subst r. rewrite finish_entities in *.
    apply finish_encloses; [|exact Hne | exact Hfin].
    eapply mainLoop_accounted; [|exact E]. reflexivity. }
  destruct Henc as (x0 & y0 & x1 & y1 & Hb & Hin & Hx0 & Hy0 & Hx1 & Hy1).
  assert (Hx : (x0 <= x1)%Q).
  { destruct (finite_point _ _ Hfin Hx0) as (y & Hy). destruct (Hin _ _ Hy) as [[_ ?] _].
    assumption. }
  assert (Hy : (y0 <= y1)%Q).
  { destruct (finite_point_y _ _ Hfin Hy0) as (x & Hxx). destruct (Hin _ _ Hxx) as [_ [_ ?]].
    assumption. }
  assert (Hfe : forallb finite (contributes e) = true).
  { rewrite forallb_forall in *. intros q Hq. apply Hfin. apply in_flat_map. eauto. }
  destruct (reach_contributed (bounds r) e p Hfe Hp)
    as (x & y & yy & -> & Hyy & (y' & Hxin) & (x' & Hyin)).
  cbn [DxfPreview fst]. rewrite Hb.
  apply (in_view_inside x0 y0 x1 y1 x y yy Hx Hy); [| |exact Hyy].
  - apply (Hin x y'). apply in_flat_map. eauto.
  - apply (Hin x' y). apply in_flat_map. eauto.
Qed.

Lemma preview_in_view_witness :
  exists r,
    parseDxf line_and_circle = Ok r
    /\ forall e p, In e (entities r) -> In p (reach (render (bounds r) e)) ->
                   in_view (fst (DxfPreview r)) p.
Proof.
  pose (r := match parseDxf line_and_circle with Ok r => r | _ => initial end).
  assert (H : parseDxf line_and_circle = Ok r) by (vm_compute; reflexivity).
  assert (Hne : flat_map contributes (entities r) <> []) by (vm_compute; discriminate).
  assert (Hfin : forallb finite (flat_map contributes (entities r)) = true)
    by (vm_compute; reflexivity).
  exists r. split; [exact H|].
  apply (preview_in_view line_and_circle r H Hne Hfin).
Defined.

(** X24: the preview leaves out a circle whose radius is 0 or not a number
    and a text without characters, and nothing else. *)
Theorem render_left_out (b : DxfBounds) (e : DxfEntity) :
  render b e = None <-> left_out e = true.
Proof.
  destruct e as [layer color p0 p1|layer color center radius|layer color x y h t
                |layer color points closed]; cbn [render left_out].
  - split; discriminate.
  - destruct radius as [| | |q]; cbn [truthy].
    + split; reflexivity.
    + split; discriminate.
    + split; discriminate.
    + destruct (Qeq_bool q 0); cbn [negb]; split; (reflexivity || discriminate).
  - destruct t as [[|c s]|]; split; (reflexivity || discriminate).
  - split; discriminate.
Qed.

End PreviewFacts.

(** ** The progress icons *)

Module StepsFacts.
Import Steps.
Local Open Scope list_scope.

(** X25: the three icons of the page, for reading, extraction and
    calculation:
    an icon is pending before its step, active at it and completed, with
    the check mark, after it; when the run has failed all three are
    pending again, whatever had been completed. *)
Theorem StepIcon_progress (current target : ProcessingStep) :
  In target [READING; EXTRACTING; CALCULATING] ->
  StepIcon current target
  = if eqb current ERROR then (Pending, Icon)
    else if Z.ltb (indexOf steps current) (indexOf steps target) then (Pending, Icon)
    else if Z.eqb (indexOf steps current) (indexOf steps target) then (Active, Icon)
    else (Completed, CheckCircle).
Proof.
  intros [<-|[<-|[<-|[]]]]; destruct current; reflexivity.
Qed.

Lemma StepIcon_progress_witness :
  In EXTRACTING [READING; EXTRACTING; CALCULATING]
  /\ StepIcon ERROR EXTRACTING = (Pending, Icon)
  /\ StepIcon CALCULATING EXTRACTING = (Completed, CheckCircle).
Proof.
  assert (H : In EXTRACTING [READING; EXTRACTING; CALCULATING]) by (right; left; reflexivity).
  split; [exact H|]. split.
  - exact (StepIcon_progress ERROR EXTRACTING H).
  - exact (StepIcon_progress CALCULATING EXTRACTING H).
Defined.

End StepsFacts.

(** ** The reply of the model *)

Module GeminiFacts.
Import JS Gemini RoundTripSpec PreviewSpec.
Import WriterFacts StringFacts.

Lemma prefix_split (a s : string) :
  String.prefix a s = true -> exists t, s = (a ++ t)%string.
Proof.
  revert s. induction a as [|c a IH]; intros s H; [now exists s|].
  destruct s as [|d s]; [discriminate|]. cbn [String.prefix] in H.
  destruct (ascii_dec c d) as [->|]; [|discriminate].
  destruct (IH s H) as (t & ->). now exists t.
Qed.

Lemma prefix_append (a t : string) : String.prefix a (a ++ t) = true.
Proof.
  induction a as [|c a IH]; cbn [append String.prefix]; [now destruct t|].
  destruct (ascii_dec c c); [exact IH | congruence].
Qed.

Lemma prefix_longer (a s t : string) :
  String.prefix a s = true -> String.prefix a (s ++ t) = true.
Proof.
  intros H. destruct (prefix_split a s H) as (u & ->).
  rewrite string_app_assoc. apply prefix_append.
Qed.

Lemma includes_longer (pat s t : string) :
  includes pat s = true -> includes pat (s ++ t) = true.
Proof.
  induction s as [|c s IH]; cbn [includes]; intros H.
  - rewrite orb_false_r in H. pose proof (prefix_longer pat "" t H) as H'.
    cbn [append] in *. destruct t as [|d t]; cbn [includes]; now rewrite H'.
  - apply orb_true_iff in H. destruct H as [H|H].
    + pose proof (prefix_longer pat (String c s) t H) as H'.
      cbn [append] in *. cbn [includes]. now rewrite H'.
    + cbn [append includes]. rewrite (IH H). apply orb_true_r.
Qed.

Lemma includes_trimStart (pat s : string) :
  includes pat (trimStart s) = true -> includes pat s = true.
Proof.
  induction s as [|c s IH]; cbn [trimStart]; [trivial|].
  destruct (is_ws c); [|trivial].
  intros H. cbn [includes]. rewrite (IH H). apply orb_true_r.
Qed.

Lemma trimEnd_prefix (s : string) : exists t, s = (trimEnd s ++ t)%string.
Proof.
  induction s as [|c s (t & IH)]; [now exists EmptyString|].
  cbn [trimEnd]. destruct (trimEnd s) as [|d r] eqn:E.
  - destruct (is_ws c); [now exists (String c s) | now exists s].
  - exists t. cbn [append] in *. now rewrite <- IH.
Qed.

Lemma includes_trim (pat s : string) :
  includes pat (trim s) = true -> includes pat s = true.
Proof.
  unfold trim. intros H. apply includes_trimStart.
  destruct (trimEnd_prefix (trimStart s)) as (t & E). rewrite E.
  now apply includes_longer.
Qed.

(** *** What [replace] does at a place *)

Lemma replace_skip (pat rep a t : string) :
  replace_from (String.length a) pat rep (a ++ t) = replace_from 0 pat rep t.
Proof.
  induction a as [|c a IH]; [reflexivity | exact IH].
Qed.

Lemma replace_match (c : ascii) (p rep t : string) :
  replace (String c p) rep (String c p ++ t) = (rep ++ replace (String c p) rep t)%string.
Proof.
  unfold replace.
  change (String c p ++ t)%string with (String c (p ++ t)).
  cbn [replace_from].
  change (String c (p ++ t)) with (String c p ++ t)%string at 1.
  rewrite prefix_append. cbn [String.length Nat.sub]. rewrite Nat.sub_0_r.
  now rewrite replace_skip.
Qed.

Lemma replace_keep (pat rep : string) (c : ascii) (r : string) :
  String.prefix pat (String c r) = false ->
  replace pat rep (String c r) = String c (replace pat rep r).
Proof. intros H. unfold replace. cbn [replace_from]. now rewrite H. Qed.



(** *** No fence is left *)

Lemma strip_tick (s : string) :
  String.prefix "`" (replace "```" "" s) = true -> String.prefix "`" s = true.
Proof.
  destruct (String.prefix "```" s) eqn:E.
  - intros _. destruct (prefix_split _ _ E) as (t & ->). reflexivity.
  - destruct s as [|c s]; [trivial|]. rewrite replace_keep by exact E.
    cbn [String.prefix]. destruct (ascii_dec "`" c); [|discriminate].
    intros _. now destruct s.
Qed.

Lemma strip_ticks (s : string) :
  String.prefix "``" (replace "```" "" s) = true -> String.prefix "``" s = true.
Proof.
  destruct (String.prefix "```" s) eqn:E.
  - intros _. destruct (prefix_split _ _ E) as (t & ->). reflexivity.
  - destruct s as [|c s]; [trivial|]. rewrite replace_keep by exact E.
    cbn [String.prefix]. destruct (ascii_dec "`" c); [|discriminate].
    intros H. change (String.prefix "`" (replace "```" "" s) = true) in H.
    apply strip_tick in H. exact H.
Qed.

Lemma strip_clean (s : string) : includes "```" (replace "```" "" s) = false.
Proof.
  induction s as [s IH] using (well_founded_induction
                                 (Wf_nat.well_founded_ltof _ String.length)).
  destruct (String.prefix "```" s) eqn:E.
  - destruct (prefix_split _ _ E) as (t & ->).
    rewrite (replace_match "`" "``" "" t). cbn [append].
    apply IH. unfold Wf_nat.ltof. cbn. lia.
  - destruct s as [|c s]; [reflexivity|]. rewrite replace_keep by exact E.
    cbn [includes]. rewrite (IH s) by (unfold Wf_nat.ltof; cbn; lia).
    rewrite orb_false_r.
    destruct (String.prefix "```" (String c (replace "```" "" s))) eqn:F; [|reflexivity].
    exfalso. cbn [String.prefix] in F, E.
    destruct (ascii_dec "`" c) as [<-|]; [|discriminate].
    change (String.prefix "``" (replace "```" "" s) = true) in F.
    apply strip_ticks in F. change (String.prefix "``" s = false) in E. congruence.
Qed.

(** X26: whatever the reply, the text handed to [JSON.parse] holds no fence
    of three backticks. *)
Theorem cleanJson_no_fence (text : string) : includes "```" (cleanJson text) = false.
Proof.
  unfold cleanJson.
  destruct (includes "```" (trim _)) eqn:E; [|reflexivity].
  apply includes_trim in E. now rewrite strip_clean in E.
Qed.






End GeminiFacts.
